(** * mnubo/api_manager.py: the authenticated HTTP client, embedded in Rocq

    The module is glue over four collaborators: the [requests] HTTP library,
    the [json] encoder, [base64] and [gzip], plus the wall clock.  The
    embedding keeps the client's own code executable and takes the
    collaborators as follows:

    - [json.dumps] and [base64.b64encode] are written out (module [Json],
      module [Base64]);
    - the part of [requests] the client relies on (status check, choice of
      the request body) is written out in module [Requests];
    - the network and the gzip compressor are the two fields of the class
      [Collaborators], over which the methods are stated;
    - a [datetime] is the number of microseconds since 0001-01-01 00:00 and
      a [timedelta] a number of microseconds, both with the ranges of the
      datetime module: a sum that leaves the years 1..9999 and a
      [timedelta] of more than 999999999 days raise [OverflowError];
    - numbers are integers: floating-point numbers, in request bodies and
      in the documents of the token endpoint, are outside the model. *)

From Stdlib Require Import ZArith NArith Ascii String List Lia.
From stdpp Require Import base strings gmap pretty.

#[local] Set Warnings "-register-all".

(** ** JSON values and [json.dumps] *)

Module Json.

(** A Python object that the json module handles.  Numbers are integers;
    a dictionary is the list of its items in iteration order; a character of
    a string is a code point below 256. *)
Inductive json : Type :=
| JNull
| JBool (b : bool)
| JNum (n : Z)
| JStr (s : string)
| JArr (items : list json)
| JObj (items : list (string * json)).

Definition dquote : ascii := "034"%char.

Definition hex_digit (n : N) : ascii :=
  match n with
  | 0 => "0" | 1 => "1" | 2 => "2" | 3 => "3" | 4 => "4" | 5 => "5"
  | 6 => "6" | 7 => "7" | 8 => "8" | 9 => "9" | 10 => "a" | 11 => "b"
  | 12 => "c" | 13 => "d" | 14 => "e" | _ => "f"
  end%char%N.

(** [ESCAPE_ASCII] / [ESCAPE_DCT] of json.encoder: what one character of a
    string becomes under [ensure_ascii=True]. *)
Definition escape_char (c : ascii) : string :=
  let n := N_of_ascii c in
  if (n =? 92)%N then "\\"
  else if (n =? 34)%N then String "\" (String dquote "")
  else if (n =? 8)%N then "\b"
  else if (n =? 12)%N then "\f"
  else if (n =? 10)%N then "\n"
  else if (n =? 13)%N then "\r"
  else if (n =? 9)%N then "\t"
  else if ((n <? 32) || (126 <? n))%N
       then "\u00" +:+ String (hex_digit (n / 16))
                          (String (hex_digit (n mod 16)) "")
  else String c "".

Fixpoint escape (s : string) : string :=
  match s with
  | EmptyString => ""
  | String c rest => escape_char c +:+ escape rest
  end.

Definition encode_basestring_ascii (s : string) : string :=
  String dquote (escape s +:+ String dquote "").

(** [json.dumps] with its default separators [", "] and [": "]. *)
Fixpoint dumps (j : json) : string :=
  match j with
  | JNull => "null"
  | JBool true => "true"
  | JBool false => "false"
  | JNum n => pretty n
  | JStr s => encode_basestring_ascii s
  | JArr items =>
      "[" +:+
      (fix elements (l : list json) : string :=
         match l with
         | [] => ""
         | x :: rest =>
             match rest with
             | [] => dumps x
             | _ :: _ => dumps x +:+ ", " +:+ elements rest
             end
         end) items +:+ "]"
  | JObj items =>
      "{" +:+
      (fix members (l : list (string * json)) : string :=
         match l with
         | [] => ""
         | (k, v) :: rest =>
             let one := encode_basestring_ascii k +:+ ": " +:+ dumps v in
             match rest with
             | [] => one
             | _ :: _ => one +:+ ", " +:+ members rest
             end
         end) items +:+ "}"
  end.

(** [obj[key]] for a string key: only a dictionary can be indexed by a
    string, and the key has to be there. *)
Fixpoint assoc (key : string) (l : list (string * json)) : option json :=
  match l with
  | [] => None
  | (k, v) :: rest => if String.eqb k key then Some v else assoc key rest
  end.

End Json.

(** ** [base64.b64encode] (RFC 4648, standard alphabet, padded) *)

Module Base64.

Definition alphabet : string :=
  "ABCDEFGHIJKLMNOPQRSTUVWXYZabcdefghijklmnopqrstuvwxyz0123456789+/".

Definition digit (n : N) : ascii :=
  match String.get (N.to_nat n) alphabet with
  | Some c => c
  | None => "="%char
  end.

Fixpoint blocks (bytes : list N) : string :=
  match bytes with
  | [] => ""
  | [a] =>
      String (digit (a / 4)) (String (digit (a mod 4 * 16)) "==")
  | [a; b] =>
      String (digit (a / 4))
        (String (digit (a mod 4 * 16 + b / 16))
           (String (digit (b mod 16 * 4)) "="))
  | a :: b :: c :: rest =>
      String (digit (a / 4))
        (String (digit (a mod 4 * 16 + b / 16))
           (String (digit (b mod 16 * 4 + c / 64))
              (String (digit (c mod 64)) (blocks rest))))
  end%N.

Definition b64encode (s : string) : string :=
  blocks (map N_of_ascii (list_ascii_of_string s)).

(** The inverse direction, [base64.b64decode] on padded input: [None] for
    what is not an encoding. *)
Fixpoint index_of (c : ascii) (s : string) (i : N) : option N :=
  match s with
  | EmptyString => None
  | String d rest => if Ascii.eqb c d then Some i else index_of c rest (i + 1)
  end.

Definition value (c : ascii) : option N := index_of c alphabet 0.

Definition is_pad (c : ascii) : bool := Ascii.eqb c "="%char.

Fixpoint unblocks (cs : list ascii) : option (list N) :=
  match cs with
  | [] => Some []
  | c1 :: c2 :: c3 :: c4 :: rest =>
      match value c1, value c2, value c3, value c4 with
      | Some v1, Some v2, Some v3, Some v4 =>
          match unblocks rest with
          | Some bytes =>
              Some (v1 * 4 + v2 / 16
                    :: v2 mod 16 * 16 + v3 / 4
                    :: v3 mod 4 * 64 + v4 :: bytes)
          | None => None
          end
      | Some v1, Some v2, Some v3, None =>
          match rest with
          | [] => if is_pad c4
                  then Some [v1 * 4 + v2 / 16; v2 mod 16 * 16 + v3 / 4]
                  else None
          | _ :: _ => None
          end
      | Some v1, Some v2, None, None =>
          match rest with
          | [] => if is_pad c3 && is_pad c4
                  then Some [v1 * 4 + v2 / 16]
                  else None
          | _ :: _ => None
          end
      | _, _, _, _ => None
      end
  | _ => None
  end%N.

Definition b64decode (s : string) : option string :=
  match unblocks (list_ascii_of_string s) with
  | Some bytes => Some (string_of_list_ascii (map ascii_of_N bytes))
  | None => None
  end.

End Base64.

(** ** A gzip writer that stores, and its reader

    The client's compressor is a collaborator (zlib behind [gzip.GzipFile]).
    The sample environments below need one that can be run: this writer
    emits a gzip member (RFC 1952) whose deflate stream consists of stored
    blocks (RFC 1951, block type 00), and the reader takes apart a stream
    of such members and checks lengths and checksums. *)

Module StoredGzip.

Fixpoint le (width : nat) (n : N) : list N :=
  match width with
  | O => []
  | S width' => (n mod 256)%N :: le width' (n / 256)%N
  end.

Definition crc_bit (c : N) : N :=
  if N.odd c then N.lxor (N.shiftr c 1) 3988292384 else N.shiftr c 1.

Definition crc_byte (crc byte : N) : N :=
  Nat.iter 8 crc_bit (N.lxor crc byte).

Definition crc32 (bytes : list N) : N :=
  N.lxor (fold_left crc_byte bytes 4294967295%N) 4294967295.

Fixpoint stored (fuel : nat) (bytes : list N) : list N :=
  match fuel with
  | O => [1; 0; 0; 255; 255]%N
  | S fuel' =>
      let len := N.of_nat (length bytes) in
      if (len <=? 65535)%N
      then 1%N :: le 2 len ++ le 2 (N.lxor len 65535) ++ bytes
      else
        [0; 255; 255; 0; 0]%N ++ firstn (N.to_nat 65535) bytes
          ++ stored fuel' (skipn (N.to_nat 65535) bytes)
  end.

Definition member_bytes (mtime : Z) (bytes : list N) : list N :=
  [31; 139; 8; 0]%N
    ++ le 4 (Z.to_N (mtime / 1000000) mod 4294967296)%N
    ++ [2; 255]%N
    ++ stored (length bytes) bytes
    ++ le 4 (crc32 bytes)
    ++ le 4 (N.of_nat (length bytes) mod 4294967296)%N.

Definition to_bytes (s : string) : list N :=
  map N_of_ascii (list_ascii_of_string s).

Definition of_bytes (bytes : list N) : string :=
  string_of_list_ascii (map ascii_of_N bytes).

Definition member (mtime : Z) (data : string) : string :=
  of_bytes (member_bytes mtime (to_bytes data)).

Fixpoint inflate_stored (fuel : nat) (bytes : list N)
    : option (list N * list N) :=
  match fuel with
  | O => None
  | S fuel' =>
      match bytes with
      | final :: l0 :: l1 :: n0 :: n1 :: rest =>
          let len := (l0 + 256 * l1)%N in
          if ((final <? 2) && (N.lxor len 65535 =? n0 + 256 * n1)
              && (len <=? N.of_nat (length rest)))%N
          then
            let chunk := firstn (N.to_nat len) rest in
            let rest' := skipn (N.to_nat len) rest in
            if (final =? 1)%N then Some (chunk, rest')
            else
              match inflate_stored fuel' rest' with
              | Some (more, rest'') => Some (chunk ++ more, rest'')
              | None => None
              end
          else None
      | _ => None
      end
  end.

Fixpoint members (fuel : nat) (bytes : list N) : option (list (list N)) :=
  match bytes with
  | [] => Some []
  | _ :: _ =>
      match fuel with
      | O => None
      | S fuel' =>
          match bytes with
          | 31%N :: 139%N :: 8%N :: 0%N
              :: _ :: _ :: _ :: _ :: _ :: _ :: deflated =>
              match inflate_stored (S (length deflated)) deflated with
              | Some (contents, trailer) =>
                  if decide (firstn 8 trailer
                             = le 4 (crc32 contents)
                               ++ le 4 (N.of_nat (length contents)
                                        mod 4294967296)%N)
                  then
                    match members fuel' (skipn 8 trailer) with
                    | Some others => Some (contents :: others)
                    | None => None
                    end
                  else None
              | None => None
              end
          | _ => None
          end
      end
  end.

(** The contents of the members of a stream, in order; [None] for what is
    not a stream of stored members. *)
Definition gunzip (stream : string) : option (list string) :=
  match members (String.length stream) (to_bytes stream) with
  | Some parts => Some (map of_bytes parts)
  | None => None
  end.

End StoredGzip.

(** ** The part of the requests library the client relies on *)

Module Requests.
Import Json.

Inductive Method : Type := HEAD | GET | POST | PUT | DELETE.

(** The default-argument objects of the module: Python evaluates the [{}]
    of [def get(self, route, params={})] once, when the function is
    defined, and every call that omits the argument is handed that one
    object.  There is one such object per decorated function that has a
    default. *)
Inductive DefaultCell : Type := GetParams | PostBody | PutBody.

(** What a call hands to the library.  [params], [data] and [json] are the
    keyword arguments of the same names ([None] when the keyword is not
    given), read when the call is made; [shares] names the default-argument
    object among them, if there is one. *)
Record Request : Type := {
  method : Method;
  url : string;
  headers : gmap string string;
  params : option (list (string * string));
  data : option string;
  json_kw : option json;
  shares : option DefaultCell
}.

(** A response: [decoded] is what [r.json()] yields, [None] when the body is
    not a JSON document. *)
Record Response : Type := {
  status_code : Z;
  content : string;
  decoded : option json
}.

(** The exceptions that reach the caller.  [JSONDecodeError] is the
    [ValueError] that [r.json()] raises; [RequestException] stands for the
    failures of the transport other than [ConnectionError];
    [OverflowError] is what the datetime module raises for a value out of
    its range. *)
Inductive Exn : Type :=
| ValueError (message : string)
| JSONDecodeError
| HTTPError (response : Response)
| ConnectionError
| RequestException (what : string)
| KeyError (key : string)
| TypeError
| OverflowError
| AttributeError (name : string).

Inductive Result (A : Type) : Type :=
| Return (a : A)
| Raise (e : Exn).
Arguments Return {A} a.
Arguments Raise {A} e.

(** [Response.raise_for_status]: an [HTTPError] that carries the response
    for a client error (4xx) or a server error (5xx), nothing otherwise. *)
Definition raise_for_status (r : Response) : Result unit :=
  if ((400 <=? status_code r) && (status_code r <? 600))%Z
  then Raise (HTTPError r)
  else Return tt.

(** [Response.json]. *)
Definition response_json (r : Response) : Result json :=
  match decoded r with
  | Some j => Return j
  | None => Raise JSONDecodeError
  end.

(** [PreparedRequest.prepare_body] for the two ways the client passes a
    body: a non-empty [data] string is sent as it is; otherwise a [json]
    argument that is not [None] is sent as [dumps json]; otherwise the
    request has no body, which is the empty string here.  Python's [None]
    is [JNull], so [json=None] is the same as leaving the keyword out. *)
Definition prepare_body (req : Request) : string :=
  match data req with
  | Some (String c rest) => String c rest
  | _ =>
      match json_kw req with
      | None | Some JNull => ""
      | Some j => dumps j
      end
  end.

End Requests.

(** ** The client: class APIManager *)

Module APIManager.
Import Json Requests.

(** The dictionary that [fetch_access_token] returns, with its three keys.
    [expires_in] is the [timedelta] and [requested_at] the [datetime], both
    in microseconds.  The value under ['access_token'] is whatever the token
    endpoint sent: the code does not look at its type before storing it. *)
Module Token.
Record t : Type := {
  access_token : json;
  expires_in : Z;
  requested_at : Z
}.
End Token.

(** The attributes of an instance.  [access_token] is [None] only while
    [__init__] runs, before the attribute is assigned.  The [__session]
    attribute is the channel to the network and has no field of its own. *)
Record t : Type := {
  __client_id : string;
  __client_secret : string;
  __hostname : string;
  compression_enabled : bool;
  access_token : option Token.t
}.

Definition set_access_token (self : t) (token : Token.t) : t :=
  {| __client_id := __client_id self;
     __client_secret := __client_secret self;
     __hostname := __hostname self;
     compression_enabled := compression_enabled self;
     access_token := Some token |}.

(** *** The world outside the instance *)

(** The contents of the three default-argument objects. *)
Record Defaults : Type := {
  get_params : list (string * string);
  post_body : json;
  put_body : json
}.

(** The clock reading, the calls handed to the library so far (oldest
    first) and the store of default-argument objects. *)
Record World : Type := {
  now : Z;
  sent : list Request;
  defaults : Defaults
}.

Inductive Outcome : Type :=
| Responds (r : Response)
| Fails (e : Exn).

(** What one exchange does: its outcome, the clock reading when it is over,
    and the default-argument objects afterwards (whoever is handed a
    reference to one of them may write to it). *)
Record Reply : Type := {
  outcome : Outcome;
  arrival : Z;
  store : Defaults
}.

(** The collaborators the client does not implement: the network behind
    the requests library, which may answer by the whole history, and the
    gzip compressor ([gzip_member mtime data] is what a [GzipFile] opened
    for writing at time [mtime] has produced once [data] is written and the
    file closed). *)
Class Collaborators : Type := {
  net : World -> Request -> Reply;
  gzip_member : Z -> string -> string
}.

(** *** Computations that read the clock, talk to the network and raise *)

Definition IO (A : Type) : Type := World -> Result A * World.

Definition ret {A} (a : A) : IO A := fun w => (Return a, w).

Definition raise {A} (e : Exn) : IO A := fun w => (Raise e, w).

Definition lift {A} (r : Result A) : IO A := fun w => (r, w).

Definition bind {A B} (m : IO A) (k : A -> IO B) : IO B :=
  fun w =>
    match m w with
    | (Return a, w') => k a w'
    | (Raise e, w') => (Raise e, w')
    end.

Declare Scope io_scope.
Delimit Scope io_scope with io.
Bind Scope io_scope with IO.
Notation "x <- m ;; k" := (bind m (fun x => k))
  (at level 100, m at next level, right associativity) : io_scope.
Notation "m ;;; k" := (bind m (fun _ => k))
  (at level 100, right associativity) : io_scope.

(** [try: m  except requests.exceptions.ConnectionError: handler] *)
Definition except_ConnectionError {A} (m handler : IO A) : IO A :=
  fun w =>
    match m w with
    | (Raise ConnectionError, w') => handler w'
    | other => other
    end.

Definition datetime_now : IO Z := fun w => (Return (now w), w).

(** One call into the library: the call is recorded, the network decides
    the outcome, the clock moves to the arrival time. *)
Definition send `{Collaborators} (req : Request) : IO Response :=
  fun w =>
    let reply := net w req in
    let w' := {| now := arrival reply;
                 sent := sent w ++ [req];
                 defaults := store reply |} in
    match outcome reply with
    | Responds r => (Return r, w')
    | Fails e => (Raise e, w')
    end.

(** An argument with a default value at the call site. *)
Inductive Arg (A : Type) : Type :=
| Omitted
| Given (a : A).
Arguments Omitted {A}.
Arguments Given {A} a.

(** Binding a parameter that has a default: an omitted argument is bound to
    the one default object of the function, whose contents are whatever
    the store holds by now. *)
Definition bind_default {A} (cell : DefaultCell) (contents : Defaults -> A)
    (arg : Arg A) : IO (A * option DefaultCell) :=
  fun w =>
    match arg with
    | Given a => (Return (a, None), w)
    | Omitted => (Return (contents (defaults w), Some cell), w)
    end.

(** *** Helpers for the Python expressions of the module *)

(** [not s] for a string. *)
Definition falsy (s : string) : bool :=
  match s with
  | EmptyString => true
  | String _ _ => false
  end.

(** [obj[key]] with a string key. *)
Definition getitem (obj : json) (key : string) : Result json :=
  match obj with
  | JObj items =>
      match assoc key items with
      | Some v => Return v
      | None => Raise (KeyError key)
      end
  | _ => Raise TypeError
  end.

(** The range of [datetime]: 0001-01-01 00:00:00 up to 9999-12-31
    23:59:59.999999, in microseconds since the former. *)
Definition datetime_min : Z := 0.

Definition datetime_max : Z := 3652059 * 86400000000 - 1.

(** [datetime + timedelta]: the sum has to be a [datetime]. *)
Definition datetime_add (moment delta : Z) : Result Z :=
  if ((datetime_min <=? moment + delta)
      && (moment + delta <=? datetime_max))%Z
  then Return (moment + delta)%Z
  else Raise OverflowError.

(** [datetime.timedelta(0, seconds)], in microseconds: the seconds are
    carried over into days, of which there may be 999999999 at most in
    either direction.  A [bool] counts as the integer it is. *)
Definition timedelta_seconds (n : Z) : Result Z :=
  if ((-999999999 <=? n / 86400) && (n / 86400 <=? 999999999))%Z
  then Return (n * 1000000)%Z
  else Raise OverflowError.

Definition timedelta (seconds : json) : Result Z :=
  match seconds with
  | JNum n => timedelta_seconds n
  | JBool b => timedelta_seconds (Z.b2z b)
  | _ => Raise TypeError
  end.

(** ['Bearer ' + value] *)
Definition bearer (value : json) : Result string :=
  match value with
  | JStr s => Return ("Bearer " +:+ s)
  | _ => Raise TypeError
  end.

(** [self.access_token] *)
Definition getattr_access_token (self : t) : Result Token.t :=
  match access_token self with
  | Some token => Return token
  | None => Raise (AttributeError "access_token")
  end.

Section Methods.
Context `{Collaborators}.
Local Open Scope io_scope.

Definition get_token_authorization_header (self : t) : gmap string string :=
  let encoded :=
    Base64.b64encode (__client_id self +:+ ":" +:+ __client_secret self) in
  <["content-type" := "application/x-www-form-urlencoded"]>
    (<["Authorization" := "Basic " +:+ encoded]> ∅).

Definition get_authorization_header (self : t)
    : Result (gmap string string) :=
  match getattr_access_token self with
  | Raise e => Raise e
  | Return token =>
      match bearer (Token.access_token token) with
      | Raise e => Raise e
      | Return value =>
          Return (<["content-type" := "application/json"]>
                    (<["Authorization" := value]> ∅))
      end
  end.

Definition get_api_url (self : t) : string :=
  __hostname self +:+ "/api/v3/".

Definition get_auth_url (self : t) : string :=
  __hostname self +:+ "/oauth/token?grant_type=client_credentials&scope=ALL".

Definition fetch_access_token (self : t) : IO Token.t :=
  requested_at <- datetime_now ;;
  r <- send {| method := POST; url := get_auth_url self;
               headers := get_token_authorization_header self;
               params := None; data := None; json_kw := None;
               shares := None |} ;;
  json_response <- lift (response_json r) ;;
  lift (raise_for_status r) ;;;
  access_token <- lift (getitem json_response "access_token") ;;
  seconds <- lift (getitem json_response "expires_in") ;;
  expires_in <- lift (timedelta seconds) ;;
  ret {| Token.access_token := access_token;
         Token.expires_in := expires_in;
         Token.requested_at := requested_at |}.

Definition is_access_token_valid (self : t) : IO bool :=
  token <- lift (getattr_access_token self) ;;
  expiry <- lift (datetime_add (Token.requested_at token)
                    (Token.expires_in token)) ;;
  current <- datetime_now ;;
  ret (expiry >? current)%Z.

Definition __init__ (client_id client_secret hostname : string)
    (compression_enabled : bool) : IO t :=
  if falsy client_id
  then raise (ValueError "client_id cannot be null or empty.")
  else if falsy client_secret
  then raise (ValueError "client_secret cannot be null or empty.")
  else
    except_ConnectionError
      (send {| method := HEAD; url := hostname; headers := ∅;
               params := None; data := None; json_kw := None;
               shares := None |})
      (raise (ValueError ("Host at " +:+ hostname +:+ " is not reachable")))
    ;;;
    let self := {| __client_id := client_id;
                   __client_secret := client_secret;
                   __hostname := hostname;
                   compression_enabled := compression_enabled;
                   access_token := None |} in
    token <- fetch_access_token self ;;
    ret (set_access_token self token).

Definition validate_response (self : t) (response : Response) : IO unit :=
  if ((status_code response =? 400) || (status_code response =? 409))%Z
  then raise (ValueError (content response))
  else lift (raise_for_status response).

Definition _gzip_encode (self : t) (data : string) : IO string :=
  mtime <- datetime_now ;;
  ret (gzip_member mtime data).

(** The decorator.  The instance is mutable, so a decorated method yields
    the instance as it is when the call is over next to its result. *)
Definition authenticate {A} (func : t -> IO A) (self : t)
    : World -> Result A * t * World :=
  fun w =>
    match is_access_token_valid self w with
    | (Raise e, w1) => (Raise e, self, w1)
    | (Return true, w1) =>
        let '(result, w2) := func self w1 in (result, self, w2)
    | (Return false, w1) =>
        match fetch_access_token self w1 with
        | (Raise e, w2) => (Raise e, self, w2)
        | (Return token, w2) =>
            let self' := set_access_token self token in
            let '(result, w3) := func self' w2 in (result, self', w3)
        end
    end.

(** The four functions under the decorator. *)
Definition get_func (route : string) (params : Arg (list (string * string)))
    (self : t) : IO Response :=
  bound <- bind_default GetParams get_params params ;;
  let url := get_api_url self +:+ route in
  headers <- lift (get_authorization_header self) ;;
  response <- send {| method := GET; url := url; headers := headers;
                      params := Some (fst bound); data := None;
                      json_kw := None; shares := snd bound |} ;;
  validate_response self response ;;;
  ret response.

Definition post_func (route : string) (body : Arg json) (self : t)
    : IO Response :=
  bound <- bind_default PostBody post_body body ;;
  let url := get_api_url self +:+ route in
  headers <- lift (get_authorization_header self) ;;
  response <-
    (if compression_enabled self
     then
       let headers := <["content-encoding" := "gzip"]> headers in
       encoded <- _gzip_encode self (dumps (fst bound)) ;;
       send {| method := POST; url := url; headers := headers;
               params := None; data := Some encoded; json_kw := None;
               shares := None |}
     else
       send {| method := POST; url := url; headers := headers;
               params := None; data := None; json_kw := Some (fst bound);
               shares := snd bound |}) ;;
  validate_response self response ;;;
  ret response.

Definition put_func (route : string) (body : Arg json) (self : t)
    : IO Response :=
  bound <- bind_default PutBody put_body body ;;
  let url := get_api_url self +:+ route in
  headers <- lift (get_authorization_header self) ;;
  response <-
    (if compression_enabled self
     then
       let headers := <["content-encoding" := "gzip"]> headers in
       encoded <- _gzip_encode self (dumps (fst bound)) ;;
       send {| method := PUT; url := url; headers := headers;
               params := None; data := Some encoded; json_kw := None;
               shares := None |}
     else
       send {| method := PUT; url := url; headers := headers;
               params := None; data := None; json_kw := Some (fst bound);
               shares := snd bound |}) ;;
  validate_response self response ;;;
  ret response.

Definition delete_func (route : string) (self : t) : IO Response :=
  let url := get_api_url self +:+ route in
  headers <- lift (get_authorization_header self) ;;
  response <- send {| method := DELETE; url := url; headers := headers;
                      params := None; data := None; json_kw := None;
                      shares := None |} ;;
  validate_response self response ;;;
  ret response.

(** The public operations. *)
Definition get (self : t) (route : string)
    (params : Arg (list (string * string))) :=
  authenticate (get_func route params) self.

Definition post (self : t) (route : string) (body : Arg json) :=
  authenticate (post_func route body) self.

Definition put (self : t) (route : string) (body : Arg json) :=
  authenticate (put_func route body) self.

Definition delete (self : t) (route : string) :=
  authenticate (delete_func route) self.

End Methods.

End APIManager.

(** ** Vocabulary of the statements, sample instances and environments *)

Import Json Requests APIManager.
Local Open Scope Z_scope.

(** A call of one of the four public operations. *)
Inductive Operation : Type :=
| Get (route : string) (params : Arg (list (string * string)))
| Post (route : string) (body : Arg json)
| Put (route : string) (body : Arg json)
| Delete (route : string).

Definition route_of (op : Operation) : string :=
  match op with
  | Get route _ | Post route _ | Put route _ | Delete route => route
  end.

Definition verb_of (op : Operation) : Method :=
  match op with
  | Get _ _ => GET
  | Post _ _ => POST
  | Put _ _ => PUT
  | Delete _ => DELETE
  end.

Section Vocabulary.
Context `{Collaborators}.

(** The function under the decorator, and the decorated one. *)
Definition func_of (op : Operation) : APIManager.t -> IO Response :=
  match op with
  | Get route params => get_func route params
  | Post route body => post_func route body
  | Put route body => put_func route body
  | Delete route => delete_func route
  end.

Definition run (op : Operation) (self : APIManager.t)
    : World -> Result Response * APIManager.t * World :=
  match op with
  | Get route params => get self route params
  | Post route body => post self route body
  | Put route body => put self route body
  | Delete route => delete self route
  end.

(** The world once the library has been handed [req] in [w]. *)
Definition world_after (w : World) (req : Request) : World :=
  {| now := arrival (net w req);
     sent := sent w ++ [req];
     defaults := store (net w req) |}.

End Vocabulary.

(** The one call that [fetch_access_token] makes. *)
Definition token_request (self : APIManager.t) : Request :=
  {| method := POST; url := get_auth_url self;
     headers := get_token_authorization_header self;
     params := None; data := None; json_kw := None; shares := None |}.

(** The calls made between an earlier world and a later one. *)
Definition issued (before after : World) : list Request :=
  drop (length (sent before)) (sent after).

(** A call of the token endpoint of [self]; each [fetch_access_token] makes
    exactly one, so counting them counts the fetches. *)
Definition is_fetch (self : APIManager.t) (req : Request) : bool :=
  String.eqb (url req) (get_auth_url self).

Definition fetches (self : APIManager.t) (calls : list Request) : nat :=
  length (filter (fun req => is_fetch self req = true) calls).

(** The store right after the module is loaded, and a world that starts at
    a given clock reading. *)
Definition loaded : Defaults :=
  {| get_params := []; post_body := JObj []; put_body := JObj [] |}.

Definition boot (clock : Z) : World :=
  {| now := clock; sent := []; defaults := loaded |}.

(** An environment in which every exchange takes [latency] microseconds,
    is answered by [answer] and leaves the default objects alone. *)
Definition answering (latency : Z) (answer : Request -> Response)
    : Collaborators :=
  {| net := fun w req =>
       {| outcome := Responds (answer req);
          arrival := now w + latency;
          store := defaults w |};
     gzip_member := StoredGzip.member |}.

(** An environment in which no host can be reached. *)
Definition unreachable : Collaborators :=
  {| net := fun w _ =>
       {| outcome := Fails ConnectionError;
          arrival := now w;
          store := defaults w |};
     gzip_member := StoredGzip.member |}.

Definition sandbox_host : string := "https://rest.sandbox.mnubo.com".

Definition token_document : json :=
  JObj [("access_token"%string, JStr "T1"); ("expires_in"%string, JNum 3600)].

(** A server that hands out the token [T1] for an hour at the token
    endpoint and answers 200 with an empty object elsewhere. *)
Definition sandbox (req : Request) : Response :=
  if String.eqb (url req)
       (sandbox_host +:+ "/oauth/token?grant_type=client_credentials&scope=ALL")
  then {| status_code := 200; content := dumps token_document;
          decoded := Some token_document |}
  else {| status_code := 200; content := "{}"; decoded := Some (JObj []) |}.

(** A token endpoint behind a broken gateway: 502 with a page of HTML. *)
Definition bad_gateway (req : Request) : Response :=
  {| status_code := 502; content := "<html>Bad Gateway</html>";
     decoded := None |}.

Definition sample_token : Token.t :=
  {| Token.access_token := JStr "T0";
     Token.expires_in := 3600 * 1000000;
     Token.requested_at := 0 |}.

Definition sample_client : APIManager.t :=
  {| __client_id := "id"; __client_secret := "secret";
     __hostname := sandbox_host; compression_enabled := true;
     access_token := Some sample_token |}.

Definition plain_client : APIManager.t :=
  {| __client_id := "id"; __client_secret := "secret";
     __hostname := sandbox_host; compression_enabled := false;
     access_token := Some sample_token |}.

(** The connectivity probe of [__init__] and the instance as it is while
    the first token is fetched. *)
Definition probe (hostname : string) : Request :=
  {| method := HEAD; url := hostname; headers := ∅;
     params := None; data := None; json_kw := None; shares := None |}.

Definition unauthenticated (client_id client_secret hostname : string)
    (compression_enabled : bool) : APIManager.t :=
  {| __client_id := client_id; __client_secret := client_secret;
     __hostname := hostname; compression_enabled := compression_enabled;
     access_token := None |}.

(** A transport that keeps a paging cursor in the [params] dictionary it
    is handed: harmless for a dictionary the caller owns, but when the
    dictionary is the default object of [get] the cursor stays in it. *)
Definition leaky : Collaborators :=
  {| net := fun w req =>
       {| outcome := Responds (sandbox req);
          arrival := now w + 250000;
          store :=
            match shares req with
            | Some GetParams =>
                {| get_params :=
                     get_params (defaults w) ++ [("page", "2")]%string;
                   post_body := post_body (defaults w);
                   put_body := put_body (defaults w) |}
            | _ => defaults w
            end |};
     gzip_member := StoredGzip.member |}.

(** Further sample data: the environments built on the servers above, a
    world whose clock is past the lifetime of [sample_token], a token
    endpoint that refuses the credentials with a JSON body, a document to
    post and the two calls the samples are expected to make. *)
Definition sandbox_env : Collaborators := answering 250000 sandbox.

Definition gateway_env : Collaborators := answering 250000 bad_gateway.

Definition refused (req : Request) : Response :=
  {| status_code := 401; content := "{}";
     decoded := Some (JObj [("error"%string, JStr "invalid_client")]) |}.

Definition refusing_env : Collaborators := answering 250000 refused.

Definition early : World := boot 5.

Definition stale : World := boot 3601000000.

Definition sample_document : json := JObj [("x"%string, JNum 1)].

Definition sample_post : Request :=
  {| method := POST; url := sandbox_host +:+ "/api/v3/events";
     headers := <["content-encoding" := "gzip"]>
                  (<["content-type" := "application/json"]>
                     (<["Authorization" := "Bearer T0"]> ∅));
     params := None;
     data := Some (StoredGzip.member 5 (dumps sample_document));
     json_kw := None; shares := None |}.

Definition sample_get : Request :=
  {| method := GET; url := sandbox_host +:+ "/api/v3/owners";
     headers := <["content-type" := "application/json"]>
                  (<["Authorization" := "Bearer T0"]> ∅);
     params := Some []; data := None; json_kw := None;
     shares := Some GetParams |}.

(** A response that is neither a success nor an error, the outcome of two
    successive [get] calls that leave [params] out over the leaky
    transport, and the instance that [__init__] builds against the
    sandbox at clock reading 0. *)
Definition not_modified : Response :=
  {| status_code := 304; content := ""; decoded := None |}.

Definition twice_owners : Result Response * APIManager.t * World :=
  let first := get (H := leaky) sample_client "owners" Omitted early in
  get (H := leaky) first.1.2 "owners" Omitted first.2.

Definition sandbox_client : APIManager.t :=
  {| __client_id := "id"; __client_secret := "secret";
     __hostname := sandbox_host; compression_enabled := true;
     access_token :=
       Some {| Token.access_token := JStr "T1";
               Token.expires_in := 3600 * 1000000;
               Token.requested_at := 250000 |} |}.

(** Whether the operation is one of the two that send a body. *)
Definition carries_body (op : Operation) : bool :=
  match op with
  | Post _ _ | Put _ _ => true
  | Get _ _ | Delete _ => false
  end.

(** More sample data: a token endpoint whose document lacks the token, a
    stored token that is a number, and the token that the sandbox hands
    out when asked at the clock reading of [stale]. *)
Definition incomplete (req : Request) : Response :=
  {| status_code := 200; content := "{}";
     decoded := Some (JObj [("token_type"%string, JStr "bearer")]) |}.

Definition incomplete_env : Collaborators := answering 250000 incomplete.

Definition numeric_token : Token.t :=
  {| Token.access_token := JNum 42;
     Token.expires_in := 3600 * 1000000;
     Token.requested_at := 0 |}.

Definition numeric_client : APIManager.t :=
  {| __client_id := "id"; __client_secret := "secret";
     __hostname := sandbox_host; compression_enabled := true;
     access_token := Some numeric_token |}.

Definition renewed_token : Token.t :=
  {| Token.access_token := JStr "T1";
     Token.expires_in := 3600 * 1000000;
     Token.requested_at := 3601000000 |}.

(** A token endpoint that answers at once and hands out a token with no
    lifetime, and that token as fetched at the clock reading of [stale]. *)
Definition lapsed (req : Request) : Response :=
  {| status_code := 200; content := "{}";
     decoded := Some (JObj [("access_token"%string, JStr "T2");
                            ("expires_in"%string, JNum 0)]) |}.

Definition lapsed_env : Collaborators := answering 0 lapsed.

Definition lapsed_token : Token.t :=
  {| Token.access_token := JStr "T2";
     Token.expires_in := 0;
     Token.requested_at := 3601000000 |}.

(** * Properties *)

(** ** Base64: decoding undoes encoding *)

Section Base64Facts.
Import Base64.
Local Open Scope N_scope.

Local Ltac euclid := zify; Z.to_euclidean_division_equations; lia.

Lemma value_digit (n : N) : n < 64 -> value (digit n) = Some n.
Proof.
  intros Hn. rewrite <- (N2Nat.id n) in *.
  assert (Hk : (N.to_nat n < 64)%nat) by lia.
  generalize dependent (N.to_nat n). clear n. intros k _ Hk.
  do 64 (destruct k as [|k]; [reflexivity|]). lia.
Qed.

Lemma value_pad : value "="%char = None.
Proof. reflexivity. Qed.

Lemma list_ind3 {A} (P : list A -> Prop) :
  P [] -> (forall a, P [a]) -> (forall a b, P [a; b]) ->
  (forall a b c rest, P rest -> P (a :: b :: c :: rest)) ->
  forall l, P l.
Proof.
  intros H0 H1 H2 H3. fix IH 1.
  intros [|a [|b [|c rest]]]; [exact H0 | apply H1 | apply H2 | apply H3, IH].
Qed.

Lemma sextets (a b c : N) :
  a < 256 -> b < 256 -> c < 256 ->
  a / 4 < 64 /\ a mod 4 * 16 + b / 16 < 64
  /\ b mod 16 * 4 + c / 64 < 64 /\ c mod 64 < 64
  /\ a mod 4 * 16 < 64 /\ b mod 16 * 4 < 64.
Proof. intros. repeat split; euclid. Qed.

Lemma octets (a b c : N) :
  a < 256 -> b < 256 -> c < 256 ->
  a / 4 * 4 + (a mod 4 * 16 + b / 16) / 16 = a
  /\ (a mod 4 * 16 + b / 16) mod 16 * 16 + (b mod 16 * 4 + c / 64) / 4 = b
  /\ (b mod 16 * 4 + c / 64) mod 4 * 64 + c mod 64 = c.
Proof. intros. repeat split; euclid. Qed.

Lemma unblocks_step (c1 c2 c3 c4 : ascii) (rest : list ascii) :
  unblocks (c1 :: c2 :: c3 :: c4 :: rest) =
  match value c1, value c2, value c3, value c4 with
  | Some v1, Some v2, Some v3, Some v4 =>
      match unblocks rest with
      | Some bytes =>
          Some (v1 * 4 + v2 / 16 :: v2 mod 16 * 16 + v3 / 4
                :: v3 mod 4 * 64 + v4 :: bytes)
      | None => None
      end
  | Some v1, Some v2, Some v3, None =>
      match rest with
      | [] => if is_pad c4
              then Some [v1 * 4 + v2 / 16; v2 mod 16 * 16 + v3 / 4]
              else None
      | _ :: _ => None
      end
  | Some v1, Some v2, None, None =>
      match rest with
      | [] => if is_pad c3 && is_pad c4 then Some [v1 * 4 + v2 / 16] else None
      | _ :: _ => None
      end
  | _, _, _, _ => None
  end.
Proof. reflexivity. Qed.

Lemma unblocks_blocks (l : list N) :
  Forall (fun b => b < 256) l ->
  unblocks (list_ascii_of_string (blocks l)) = Some l.
Proof.
  induction l as [|a|a b|a b c rest IH] using list_ind3; intros Hl.
  - reflexivity.
  - inversion_clear Hl as [|? ? Ha _].
    destruct (sextets a 0 0) as (S1 & _ & _ & _ & S2 & _); [lia..|].
    destruct (octets a 0 0) as (O1 & _); [lia..|].
    change (0 / 16) with 0 in O1. rewrite N.add_0_r in O1.
    cbn [blocks list_ascii_of_string].
    rewrite unblocks_step, !value_digit, value_pad by assumption.
    cbn [list_ascii_of_string is_pad Ascii.eqb Bool.eqb andb].
    now rewrite O1.
  - inversion_clear Hl as [|? ? Ha Hl']. inversion_clear Hl' as [|? ? Hb _].
    destruct (sextets a b 0) as (S1 & S2 & _ & _ & _ & S3); [lia..|].
    destruct (octets a b 0) as (O1 & O2 & _); [lia..|].
    change (0 / 64) with 0 in O2. rewrite N.add_0_r in O2.
    cbn [blocks list_ascii_of_string].
    rewrite unblocks_step, !value_digit, value_pad by assumption.
    cbn [list_ascii_of_string is_pad Ascii.eqb Bool.eqb andb].
    now rewrite O1, O2.
  - inversion_clear Hl as [|? ? Ha Hl']. inversion_clear Hl' as [|? ? Hb Hl].
    inversion_clear Hl as [|? ? Hc Hrest].
    destruct (sextets a b c) as (S1 & S2 & S3 & S4 & _); [lia..|].
    destruct (octets a b c) as (O1 & O2 & O3); [lia..|].
    cbn [blocks list_ascii_of_string].
    rewrite unblocks_step, !value_digit by assumption.
    rewrite (IH Hrest). now rewrite O1, O2, O3.
Qed.

Lemma b64decode_b64encode (s : string) : b64decode (b64encode s) = Some s.
Proof.
  unfold b64decode, b64encode. rewrite unblocks_blocks.
  - rewrite map_map. f_equal.
    rewrite <- (string_of_list_ascii_of_string s) at 2. f_equal.
    induction (list_ascii_of_string s) as [|c l IHl]; [reflexivity|].
    cbn [map]. now rewrite ascii_N_embedding, IHl.
  - induction (list_ascii_of_string s) as [|c l IHl]; constructor;
      [apply N_ascii_bounded | exact IHl].
Qed.

End Base64Facts.

(** ** URLs *)

Lemma append_assoc (a b c : string) : (a +:+ b) +:+ c = a +:+ (b +:+ c).
Proof.
  induction a as [|x a IH]; [reflexivity|].
  change (String x ((a +:+ b) +:+ c) = String x (a +:+ (b +:+ c))).
  now rewrite IH.
Qed.

Lemma api_url_is_not_auth_url (self : APIManager.t) (route : string) :
  get_api_url self +:+ route <> get_auth_url self.
Proof.
  unfold get_api_url, get_auth_url. rewrite append_assoc.
  intros E. apply (inj (String.app _)) in E. discriminate E.
Qed.

(** ** Running the methods *)

Ltac step_io :=
  unfold bind, lift, ret, raise, datetime_now, except_ConnectionError in *;
  cbn [fst snd] in *.

Section Facts.
Context `{Collaborators}.

Lemma send_run (req : Request) (w : World) :
  send req w =
    (match outcome (net w req) with
     | Responds r => Return r
     | Fails e => Raise e
     end, world_after w req).
Proof. unfold send, world_after. destruct (outcome _); reflexivity. Qed.

Lemma datetime_add_Return (moment delta sum : Z) :
  datetime_add moment delta = Return sum <->
  sum = moment + delta /\ datetime_min <= moment + delta <= datetime_max.
Proof.
  unfold datetime_add.
  destruct (Z.leb_spec datetime_min (moment + delta)),
    (Z.leb_spec (moment + delta) datetime_max); cbn [andb];
    split; try (intros [= <-]; split; [done|lia]);
    try (intros [-> ?]; reflexivity); try discriminate; intros [_ ?]; lia.
Qed.

Lemma datetime_add_in_range (moment delta : Z) :
  datetime_min <= moment + delta <= datetime_max ->
  datetime_add moment delta = Return (moment + delta).
Proof. intros Hrange. by apply datetime_add_Return. Qed.

Lemma is_access_token_valid_run (self : APIManager.t) (token : Token.t)
    (w : World) :
  access_token self = Some token ->
  is_access_token_valid self w =
    (match datetime_add (Token.requested_at token)
             (Token.expires_in token) with
     | Return expiry => Return (expiry >? now w)
     | Raise e => Raise e
     end, w).
Proof.
  intros Htoken. unfold is_access_token_valid, getattr_access_token.
  rewrite Htoken. step_io. by destruct (datetime_add _ _).
Qed.

Lemma is_access_token_valid_world (self : APIManager.t) (w : World) :
  (is_access_token_valid self w).2 = w.
Proof.
  unfold is_access_token_valid. step_io.
  destruct (getattr_access_token self); [|done].
  by destruct (datetime_add _ _).
Qed.

Lemma fetch_access_token_world (self : APIManager.t) (w : World) :
  (fetch_access_token self w).2 = world_after w (token_request self).
Proof.
  unfold fetch_access_token. step_io.
  fold (token_request self). rewrite send_run.
  repeat case_match; reflexivity.
Qed.

Lemma validate_response_world (self : APIManager.t) (r : Response) (w : World) :
  (validate_response self r w).2 = w.
Proof. unfold validate_response. step_io. repeat case_match; reflexivity. Qed.


Lemma world_after_inj (w : World) (a b : Request) :
  world_after w a = world_after w b -> a = b.
Proof.
  intros E. apply (f_equal sent) in E. cbn in E.
  apply app_inj_tail in E. by destruct E.
Qed.

Ltac run_func Hh :=
  unfold get_func, post_func, put_func, delete_func, bind_default, _gzip_encode;
  step_io; rewrite Hh; step_io; rewrite send_run;
  destruct (outcome _);
  [rewrite (surjective_pairing (validate_response _ _ _)),
     validate_response_world;
   destruct (validate_response _ _ _).1|]; reflexivity.

Lemma get_func_sends (route : string) (params : Arg (list (string * string)))
    (self : APIManager.t) (w : World) (base : gmap string string) :
  get_authorization_header self = Return base ->
  (get_func route params self w).2 =
    world_after w
      {| method := GET; url := get_api_url self +:+ route; headers := base;
         params := Some (match params with
                         | Given given => given
                         | Omitted => get_params (defaults w)
                         end);
         data := None; json_kw := None;
         shares := match params with
                   | Given _ => None
                   | Omitted => Some GetParams
                   end |}.
Proof. intros Hh. destruct params; run_func Hh. Qed.

Lemma delete_func_sends (route : string) (self : APIManager.t) (w : World)
    (base : gmap string string) :
  get_authorization_header self = Return base ->
  (delete_func route self w).2 =
    world_after w
      {| method := DELETE; url := get_api_url self +:+ route; headers := base;
         params := None; data := None; json_kw := None; shares := None |}.
Proof. intros Hh. run_func Hh. Qed.

Lemma post_func_sends (route : string) (body : Arg json)
    (self : APIManager.t) (w : World) (base : gmap string string) :
  get_authorization_header self = Return base ->
  let document := match body with
                  | Given given => given
                  | Omitted => post_body (defaults w)
                  end in
  (post_func route body self w).2 =
    world_after w
      (if compression_enabled self
       then {| method := POST; url := get_api_url self +:+ route;
               headers := <["content-encoding" := "gzip"]> base;
               params := None;
               data := Some (gzip_member (now w) (dumps document));
               json_kw := None; shares := None |}
       else {| method := POST; url := get_api_url self +:+ route;
               headers := base; params := None; data := None;
               json_kw := Some document;
               shares := match body with
                         | Given _ => None
                         | Omitted => Some PostBody
                         end |}).
Proof.
  intros Hh document. subst document.
  destruct body, (compression_enabled self) eqn:Hc;
    unfold post_func; rewrite Hc; run_func Hh.
Qed.

Lemma put_func_sends (route : string) (body : Arg json)
    (self : APIManager.t) (w : World) (base : gmap string string) :
  get_authorization_header self = Return base ->
  let document := match body with
                  | Given given => given
                  | Omitted => put_body (defaults w)
                  end in
  (put_func route body self w).2 =
    world_after w
      (if compression_enabled self
       then {| method := PUT; url := get_api_url self +:+ route;
               headers := <["content-encoding" := "gzip"]> base;
               params := None;
               data := Some (gzip_member (now w) (dumps document));
               json_kw := None; shares := None |}
       else {| method := PUT; url := get_api_url self +:+ route;
               headers := base; params := None; data := None;
               json_kw := Some document;
               shares := match body with
                         | Given _ => None
                         | Omitted => Some PutBody
                         end |}).
Proof.
  intros Hh document. subst document.
  destruct body, (compression_enabled self) eqn:Hc;
    unfold put_func; rewrite Hc; run_func Hh.
Qed.


Lemma func_silent (op : Operation) (self : APIManager.t) (w : World) (e : Exn) :
  get_authorization_header self = Raise e ->
  func_of op self w = (Raise e, w).
Proof.
  intros Hh.
  destruct op as [route [|params]|route [|body]|route [|body]|route];
    cbn [func_of];
    unfold get_func, post_func, put_func, delete_func, bind_default; step_io;
    rewrite Hh; reflexivity.
Qed.

Lemma func_sends (op : Operation) (self : APIManager.t) (w : World)
    (base : gmap string string) :
  get_authorization_header self = Return base ->
  exists req,
    (func_of op self w).2 = world_after w req
    /\ method req = verb_of op
    /\ url req = get_api_url self +:+ route_of op
    /\ headers req !! "Authorization" = base !! "Authorization".
Proof.
  intros Hh.
  destruct op as [route params|route body|route body|route]; cbn [func_of].
  - rewrite (get_func_sends route params self w base Hh). by eexists.
  - rewrite (post_func_sends route body self w base Hh).
    destruct (compression_enabled self); eexists; split_and!; try done.
    cbn [headers]. by rewrite lookup_insert_ne.
  - rewrite (put_func_sends route body self w base Hh).
    destruct (compression_enabled self); eexists; split_and!; try done.
    cbn [headers]. by rewrite lookup_insert_ne.
  - rewrite (delete_func_sends route self w base Hh). by eexists.
Qed.


Lemma run_authenticate (op : Operation) (self : APIManager.t) :
  run op self = authenticate (func_of op) self.
Proof. destruct op; reflexivity. Qed.

Lemma issued_refl (w : World) : issued w w = [].
Proof. unfold issued. apply drop_all. Qed.

Lemma issued_after (w : World) (req : Request) :
  issued w (world_after w req) = [req].
Proof. unfold issued, world_after. cbn. by rewrite drop_app_length. Qed.

Lemma issued_after_after (w : World) (req req' : Request) :
  issued w (world_after (world_after w req) req') = [req; req'].
Proof.
  unfold issued, world_after. cbn. by rewrite <- app_assoc, drop_app_length.
Qed.

(** What the function under the decorator hands to the library: nothing
    when the header cannot be built, otherwise one call, to the route under
    the API root, with the bearer header of the stored token. *)
Lemma func_calls (op : Operation) (self : APIManager.t) (w : World) :
  (exists e, get_authorization_header self = Raise e
             /\ func_of op self w = (Raise e, w))
  \/ (exists base req,
        get_authorization_header self = Return base
        /\ (func_of op self w).2 = world_after w req
        /\ method req = verb_of op
        /\ url req = get_api_url self +:+ route_of op
        /\ headers req !! "Authorization" = base !! "Authorization").
Proof.
  destruct (get_authorization_header self) as [base|e] eqn:Hh.
  - right. destruct (func_sends op self w base Hh) as (req & ?).
    exists base, req. by split.
  - left. exists e. split; [done|]. by apply func_silent.
Qed.

Lemma is_fetch_token_request (self : APIManager.t) :
  is_fetch self (token_request self) = true.
Proof. unfold is_fetch. apply String.eqb_refl. Qed.

Lemma is_fetch_resource (self : APIManager.t) (route : string) (req : Request) :
  url req = get_api_url self +:+ route -> is_fetch self req = false.
Proof.
  intros Hu. unfold is_fetch. rewrite Hu. apply String.eqb_neq.
  apply api_url_is_not_auth_url.
Qed.


Lemma fetches_cons (self : APIManager.t) (req : Request)
    (calls : list Request) :
  fetches self (req :: calls) =
    ((if is_fetch self req then 1 else 0) + fetches self calls)%nat.
Proof.
  unfold fetches. rewrite filter_cons.
  destruct (is_fetch self req); case_decide; done.
Qed.


(** The four ways a decorated call can go. *)
Lemma run_cases (op : Operation) (self : APIManager.t) (w : World) :
  let w1 := world_after w (token_request self) in
  (exists e, is_access_token_valid self w = (Raise e, w)
             /\ run op self w = (Raise e, self, w))
  \/ (is_access_token_valid self w = (Return true, w)
      /\ run op self w = ((func_of op self w).1, self, (func_of op self w).2))
  \/ (is_access_token_valid self w = (Return false, w)
      /\ exists e, fetch_access_token self w = (Raise e, w1)
                   /\ run op self w = (Raise e, self, w1))
  \/ (is_access_token_valid self w = (Return false, w)
      /\ exists renewed,
           fetch_access_token self w = (Return renewed, w1)
           /\ run op self w
              = ((func_of op (set_access_token self renewed) w1).1,
                 set_access_token self renewed,
                 (func_of op (set_access_token self renewed) w1).2)).
Proof.
  intros w1. subst w1. rewrite run_authenticate. unfold authenticate.
  pose proof (is_access_token_valid_world self w) as Hsame.
  destruct (is_access_token_valid self w) as [[[|]|e] w0];
    cbn [snd] in Hsame; subst w0.
  - right. left. split; [done|]. by destruct (func_of op self w).
  - right. right.
    pose proof (fetch_access_token_world self w) as Hworld.
    destruct (fetch_access_token self w) as [[renewed|e] w1];
      cbn [snd] in Hworld; subst w1.
    + right. split; [done|]. exists renewed. split; [done|].
      by destruct (func_of op _ _).
    + left. split; [done|]. by exists e.
  - left. by exists e.
Qed.

(** The decorated call when the expiry of the stored token is a
    [datetime]: the token is valid while the clock reads less. *)
Lemma run_valid (op : Operation) (self : APIManager.t) (token : Token.t)
    (w : World) :
  access_token self = Some token ->
  datetime_min <= Token.requested_at token + Token.expires_in token
               <= datetime_max ->
  now w < Token.requested_at token + Token.expires_in token ->
  run op self w = ((func_of op self w).1, self, (func_of op self w).2).
Proof.
  intros Htoken Hrange Hvalid. rewrite run_authenticate. unfold authenticate.
  rewrite (is_access_token_valid_run self token w Htoken).
  rewrite (datetime_add_in_range _ _ Hrange).
  rewrite Z.gtb_ltb. apply Z.ltb_lt in Hvalid as ->.
  by destruct (func_of op self w).
Qed.

Lemma run_expired (op : Operation) (self : APIManager.t) (token : Token.t)
    (w : World) :
  access_token self = Some token ->
  datetime_min <= Token.requested_at token + Token.expires_in token
               <= datetime_max ->
  Token.requested_at token + Token.expires_in token <= now w ->
  run op self w
  = match fetch_access_token self w with
    | (Return renewed, w1) =>
        ((func_of op (set_access_token self renewed) w1).1,
         set_access_token self renewed,
         (func_of op (set_access_token self renewed) w1).2)
    | (Raise e, w1) => (Raise e, self, w1)
    end.
Proof.
  intros Htoken Hrange Hexpired. rewrite run_authenticate.
  unfold authenticate.
  rewrite (is_access_token_valid_run self token w Htoken).
  rewrite (datetime_add_in_range _ _ Hrange).
  rewrite Z.gtb_ltb. apply Z.ltb_ge in Hexpired as ->.
  destruct (fetch_access_token self w) as [[renewed|e] w1]; [|done].
  by destruct (func_of op _ _).
Qed.

Lemma authorization_header_inv (self : APIManager.t)
    (base : gmap string string) :
  get_authorization_header self = Return base ->
  exists token value,
    access_token self = Some token
    /\ Token.access_token token = JStr value
    /\ base = <["content-type" := "application/json"]>
                (<["Authorization" := "Bearer " +:+ value]> ∅).
Proof.
  unfold get_authorization_header, getattr_access_token, bearer.
  destruct (access_token self) as [token|]; [|done].
  destruct (Token.access_token token) as [| | |value| |] eqn:Hvalue; try done.
  intros [= <-]. by exists token, value.
Qed.

(** The one call of the function under the decorator carries the bearer
    header of the token that the instance holds. *)
Lemma func_bearer (op : Operation) (self : APIManager.t) (w : World)
    (req : Request) :
  req ∈ issued w (func_of op self w).2 ->
  exists token value,
    access_token self = Some token
    /\ Token.access_token token = JStr value
    /\ headers req !! "Authorization" = Some ("Bearer " +:+ value)
    /\ headers req !! "content-type" = Some "application/json".
Proof.
  intros Hin.
  destruct (func_calls op self w)
    as [(e & _ & Hs)|(base & req' & Hh & Hs & _)]; rewrite Hs in Hin.
  - rewrite issued_refl in Hin. by apply elem_of_nil in Hin.
  - rewrite issued_after in Hin. apply list_elem_of_singleton in Hin as ->.
    destruct (authorization_header_inv self base Hh)
      as (token & value & Htoken & Hvalue & ->).
    exists token, value. split; [done|]. split; [done|].
    destruct op as [route params|route body|route body|route];
      cbn [func_of] in Hs.
    + rewrite (get_func_sends _ _ _ _ _ Hh) in Hs.
      by apply world_after_inj in Hs as <-.
    + rewrite (post_func_sends _ _ _ _ _ Hh) in Hs.
      apply world_after_inj in Hs as <-.
      by destruct (compression_enabled self).
    + rewrite (put_func_sends _ _ _ _ _ Hh) in Hs.
      apply world_after_inj in Hs as <-.
      by destruct (compression_enabled self).
    + rewrite (delete_func_sends _ _ _ _ Hh) in Hs.
      by apply world_after_inj in Hs as <-.
Qed.


(** C10.  When the stored token has expired (its expiry is a [datetime]
    that the clock has reached) and the fetch made by the decorator
    raises, the operation raises the same exception, the instance is
    exactly as it was before the call, and the only call that has been
    made is the token request: the resource request is never sent. *)
Theorem failed_fetch_leaves_client (op : Operation) (self : APIManager.t)
    (token : Token.t) (w w1 : World) (e : Exn) :
  access_token self = Some token ->
  datetime_min <= Token.requested_at token + Token.expires_in token
               <= datetime_max ->
  Token.requested_at token + Token.expires_in token <= now w ->
  fetch_access_token self w = (Raise e, w1) ->
  run op self w = (Raise e, self, w1)
  /\ issued w w1 = [token_request self].
Proof.
  intros Htoken Hrange Hexpired Hfetch.
  rewrite (run_expired op self token w Htoken Hrange Hexpired), Hfetch.
  split; [reflexivity|].
  pose proof (fetch_access_token_world self w) as Hworld.
  rewrite Hfetch in Hworld. cbn [snd] in Hworld. subst w1.
  apply issued_after.
Qed.

(** C1 (amended).  [validate_response] raises [ValueError] with exactly the
    body of the response when the status is 400 or 409; it raises
    [HTTPError] with the response (status and body) for every other status
    from 400 to 599; it returns normally, and leaves the world alone, for
    every other status: the 2xx ones, and also the 1xx and 3xx ones. *)
Theorem validate_response_cases (self : APIManager.t) (response : Response)
    (w : World) :
  validate_response self response w =
    (if decide (status_code response = 400 \/ status_code response = 409)
     then Raise (ValueError (content response))
     else if decide (400 <= status_code response < 600)
          then Raise (HTTPError response)
          else Return tt,
     w).
Proof.
  unfold validate_response, raise, lift, raise_for_status.
  destruct (status_code response =? 400) eqn:E400;
    destruct (status_code response =? 409) eqn:E409; cbn [orb];
    repeat case_decide; try reflexivity; try lia.
  - destruct (400 <=? status_code response) eqn:?,
      (status_code response <? 600) eqn:?;
      cbn [andb]; try reflexivity; lia.
  - destruct (400 <=? status_code response) eqn:?,
      (status_code response <? 600) eqn:?;
      cbn [andb]; try reflexivity; lia.
Qed.


(** Every call that a public operation hands to the library is either the
    token request or the one call of the function under the decorator,
    made by the instance as the decorator left it. *)
Lemma run_issued (op : Operation) (self : APIManager.t) (w : World)
    (req : Request) :
  req ∈ issued w (run op self w).2 ->
  req = token_request self
  \/ exists self' w1 base,
       (self' = self \/ exists fresh, self' = set_access_token self fresh)
       /\ (w1 = w \/ w1 = world_after w (token_request self))
       /\ get_authorization_header self' = Return base
       /\ (func_of op self' w1).2 = world_after w1 req.
Proof.
  destruct (run_cases op self w)
    as [(e & _ & ->)|[(_ & ->)|[(_ & e & _ & ->)|(_ & renewed & _ & ->)]]];
    cbn [fst snd].
  - rewrite issued_refl. by intros ?%elem_of_nil.
  - destruct (func_calls op self w)
      as [(e & _ & Hs)|(base & req0 & Hh & Hs & _)]; rewrite Hs; cbn [snd].
    + rewrite issued_refl. by intros ?%elem_of_nil.
    + rewrite issued_after. intros ->%list_elem_of_singleton.
      right. exists self, w, base.
      split_and!; [by left | by left | done | done].
  - rewrite issued_after. intros ->%list_elem_of_singleton. by left.
  - set (self' := set_access_token self renewed).
    set (w1 := world_after w (token_request self)).
    destruct (func_calls op self' w1)
      as [(e & _ & Hs)|(base & req0 & Hh & Hs & _)]; rewrite Hs; cbn [snd].
    + subst w1. rewrite issued_after.
      intros ->%list_elem_of_singleton. by left.
    + subst w1. rewrite issued_after_after.
      intros [->|Hin]%elem_of_cons; [by left|].
      apply list_elem_of_singleton in Hin as ->.
      right. exists self', (world_after w (token_request self)), base.
      subst self'.
      split_and!; [right; by eexists | by right | done | done].
Qed.

Lemma run_returns (op : Operation) (self : APIManager.t) (w : World)
    (response : Response) :
  (run op self w).1.1 = Return response ->
  exists req,
    last (issued w (run op self w).2) = Some req
    /\ method req = verb_of op
    /\ url req = get_api_url self +:+ route_of op.
Proof.
  destruct (run_cases op self w)
    as [(e & _ & ->)|[(_ & ->)|[(_ & e & _ & ->)|(_ & renewed & _ & ->)]]];
    cbn [fst snd]; try done.
  - intros Hret.
    destruct (func_calls op self w)
      as [(e & _ & Hs)|(base & req0 & _ & Hs & Hm & Hu & _)];
      [by rewrite Hs in Hret|].
    rewrite Hs, issued_after. by exists req0.
  - intros Hret.
    destruct (func_calls op (set_access_token self renewed)
                (world_after w (token_request self)))
      as [(e & _ & Hs)|(base & req0 & _ & Hs & Hm & Hu & _)];
      [by rewrite Hs in Hret|].
    rewrite Hs, issued_after_after. by exists req0.
Qed.

(** With a string token stored, the function under the decorator makes
    exactly one call, with its verb, to the route under the API root. *)
Lemma func_one_call (op : Operation) (self : APIManager.t)
    (token : Token.t) (value : string) (w : World) :
  access_token self = Some token ->
  Token.access_token token = JStr value ->
  exists req,
    (func_of op self w).2 = world_after w req
    /\ method req = verb_of op
    /\ url req = get_api_url self +:+ route_of op.
Proof.
  intros Htoken Hvalue.
  assert (Hh : get_authorization_header self
               = Return (<["content-type" := "application/json"]>
                           (<["Authorization" := "Bearer " +:+ value]> ∅))).
  { unfold get_authorization_header, getattr_access_token, bearer.
    by rewrite Htoken, Hvalue. }
  destruct (func_sends op self w _ Hh) as (req & Hs & Hm & Hu & _).
  by exists req.
Qed.

(** C8.  [get_api_url] is the host name followed by [/api/v3/] and
    [get_auth_url] the host name followed by the token path.  Every call
    an operation makes besides the token request goes, with the verb of
    the operation, to [get_api_url] followed by the route, and an
    operation that returns a response has made that call last.  The call
    is made: with a valid string token stored it is the one call of the
    operation, and with an expired token it follows the token request as
    soon as the fetch has returned a string token. *)
Theorem urls_and_routes (op : Operation) (self : APIManager.t) (w : World) :
  get_api_url self = __hostname self +:+ "/api/v3/"
  /\ get_auth_url self
     = __hostname self +:+ "/oauth/token?grant_type=client_credentials&scope=ALL"
  /\ (forall req, req ∈ issued w (run op self w).2 ->
        req = token_request self
        \/ (method req = verb_of op
            /\ url req = get_api_url self +:+ route_of op))
  /\ (forall response, (run op self w).1.1 = Return response ->
        exists req,
          last (issued w (run op self w).2) = Some req
          /\ method req = verb_of op
          /\ url req = get_api_url self +:+ route_of op)
  /\ (forall token value,
        access_token self = Some token ->
        Token.access_token token = JStr value ->
        datetime_min <= Token.requested_at token + Token.expires_in token
                     <= datetime_max ->
        now w < Token.requested_at token + Token.expires_in token ->
        exists req,
          issued w (run op self w).2 = [req]
          /\ method req = verb_of op
          /\ url req = get_api_url self +:+ route_of op)
  /\ (forall token renewed value w1,
        access_token self = Some token ->
        datetime_min <= Token.requested_at token + Token.expires_in token
                     <= datetime_max ->
        Token.requested_at token + Token.expires_in token <= now w ->
        fetch_access_token self w = (Return renewed, w1) ->
        Token.access_token renewed = JStr value ->
        exists req,
          issued w (run op self w).2 = [token_request self; req]
          /\ method req = verb_of op
          /\ url req = get_api_url self +:+ route_of op).
Proof.
  split_and!; [reflexivity | reflexivity | | apply run_returns | | ].
  - intros req [->|(self' & w1 & base & Hself & _ & Hh & Hs)]%run_issued;
      [by left|right].
    destruct (func_sends op self' w1 base Hh) as (req0 & Hs0 & Hm & Hu & _).
    rewrite Hs in Hs0. apply world_after_inj in Hs0 as <-.
    split; [done|]. rewrite Hu.
    by destruct Hself as [->|[fresh ->]].
  - intros token value Htoken Hvalue Hrange Hvalid.
    rewrite (run_valid op self token w Htoken Hrange Hvalid). cbn [snd].
    destruct (func_one_call op self token value w Htoken Hvalue)
      as (req & -> & Hm & Hu).
    exists req. by rewrite issued_after.
  - intros token renewed value w1 Htoken Hrange Hexpired Hfetch Hvalue.
    rewrite (run_expired op self token w Htoken Hrange Hexpired), Hfetch.
    cbn [snd].
    pose proof (fetch_access_token_world self w) as Hworld.
    rewrite Hfetch in Hworld. cbn [snd] in Hworld. subst w1.
    destruct (func_one_call op (set_access_token self renewed) renewed value
                (world_after w (token_request self)) eq_refl Hvalue)
      as (req & -> & Hm & Hu).
    exists req. by rewrite issued_after_after.
Qed.

Lemma authorization_header_keys (self : APIManager.t)
    (base : gmap string string) :
  get_authorization_header self = Return base ->
  base !! "content-encoding" = None.
Proof.
  unfold get_authorization_header.
  destruct (getattr_access_token self) as [token|]; [|discriminate].
  destruct (bearer _); [|discriminate]. by intros [= <-].
Qed.

Lemma prepare_body_data (req : Request) (bytes : string) :
  data req = Some bytes -> json_kw req = None -> prepare_body req = bytes.
Proof.
  unfold prepare_body. intros -> ->. by destruct bytes.
Qed.

Lemma prepare_body_json (req : Request) (document : json) :
  data req = None -> json_kw req = Some document -> document <> JNull ->
  prepare_body req = dumps document.
Proof.
  unfold prepare_body. intros -> -> Hd. by destruct document.
Qed.

(** What [post] and [put] send for a supplied body.  With compression
    enabled, the payload of the resource request is what the compressor
    made of [dumps body], so it decompresses to the single member
    [dumps body] for every decompressor that undoes the compressor on that
    text, and the request carries [content-encoding: gzip]; with
    compression disabled and a body other than [None], the payload is
    [dumps body] itself and there is no [content-encoding] header. *)
Lemma body_payload (gunzip : string -> option (list string))
    (op : Operation) (self : APIManager.t) (w : World) (route : string)
    (body : json) (req : Request) :
  (forall mtime, gunzip (gzip_member mtime (dumps body)) = Some [dumps body]) ->
  op = Post route (Given body) \/ op = Put route (Given body) ->
  req ∈ issued w (run op self w).2 ->
  req <> token_request self ->
  (compression_enabled self = true ->
     gunzip (prepare_body req) = Some [dumps body]
     /\ headers req !! "content-encoding" = Some "gzip")
  /\ (compression_enabled self = false -> body <> JNull ->
       prepare_body req = dumps body
       /\ headers req !! "content-encoding" = None).
Proof.
  intros Hgzip Hop Hin Hreq.
  apply run_issued in Hin
    as [->|(self' & w1 & base & Hself & _ & Hh & Hs)]; [done|].
  assert (Hc : compression_enabled self' = compression_enabled self)
    by (by destruct Hself as [->|[fresh ->]]).
  pose proof (authorization_header_keys self' base Hh) as Hkeys.
  assert (Hsent :
    req = (if compression_enabled self
           then {| method := verb_of op; url := get_api_url self' +:+ route;
                   headers := <["content-encoding" := "gzip"]> base;
                   params := None;
                   data := Some (gzip_member (now w1) (dumps body));
                   json_kw := None; shares := None |}
           else {| method := verb_of op; url := get_api_url self' +:+ route;
                   headers := base; params := None; data := None;
                   json_kw := Some body; shares := None |})).
  { destruct Hop as [->| ->]; cbn [func_of] in Hs.
    - rewrite (post_func_sends route (Given body) self' w1 base Hh), Hc in Hs.
      by apply world_after_inj in Hs as <-.
    - rewrite (put_func_sends route (Given body) self' w1 base Hh), Hc in Hs.
      by apply world_after_inj in Hs as <-. }
  split.
  - intros Hon. rewrite Hon in Hsent. subst req.
    split; [|cbn [headers]; by rewrite lookup_insert_eq].
    erewrite prepare_body_data by reflexivity. apply Hgzip.
  - intros Hoff Hbody. rewrite Hoff in Hsent. subst req.
    split; [|exact Hkeys]. by apply prepare_body_json.
Qed.


Section Frame.
Hypothesis net_frame : forall w req, store (net w req) = defaults w.

Lemma world_after_defaults (w : World) (req : Request) :
  defaults (world_after w req) = defaults w.
Proof. apply net_frame. Qed.

Lemma func_defaults (op : Operation) (self : APIManager.t) (w : World) :
  defaults (func_of op self w).2 = defaults w.
Proof.
  destruct (func_calls op self w) as [(e & _ & ->)|(base & req & _ & -> & _)];
    [reflexivity | apply world_after_defaults].
Qed.

Lemma run_defaults (op : Operation) (self : APIManager.t) (w : World) :
  defaults (run op self w).2 = defaults w.
Proof.
  destruct (run_cases op self w)
    as [(e & _ & ->)|[(_ & ->)|[(_ & e & _ & ->)|(_ & renewed & _ & ->)]]];
    cbn [fst snd].
  - reflexivity.
  - apply func_defaults.
  - apply world_after_defaults.
  - by rewrite func_defaults, world_after_defaults.
Qed.

(** C9 (amended).  Each of [get], [post] and [put] has one default
    container, shared by all the calls that omit the argument: such a call
    hands the library the contents the container has at that time (and,
    where the container itself is passed on, that very object).  The client
    never writes to a default container: when the library does not either,
    an operation leaves all three as they were. *)
Theorem default_containers_shared (op : Operation) (self : APIManager.t)
    (w : World) :
  defaults (run op self w).2 = defaults w
  /\ forall req, req ∈ issued w (run op self w).2 ->
     req <> token_request self ->
     match op with
     | Get _ Omitted =>
         params req = Some (get_params (defaults w))
         /\ shares req = Some GetParams
     | Post _ Omitted =>
         if compression_enabled self
         then (exists mtime,
                 data req
                 = Some (gzip_member mtime (dumps (post_body (defaults w)))))
              /\ shares req = None
         else json_kw req = Some (post_body (defaults w))
              /\ shares req = Some PostBody
     | Put _ Omitted =>
         if compression_enabled self
         then (exists mtime,
                 data req
                 = Some (gzip_member mtime (dumps (put_body (defaults w)))))
              /\ shares req = None
         else json_kw req = Some (put_body (defaults w))
              /\ shares req = Some PutBody
     | _ => shares req = None
     end.
Proof.
  split; [apply run_defaults|].
  intros req [->|(self' & w1 & base & Hself & Hw1 & Hh & Hs)]%run_issued Hreq;
    [done|].
  assert (Hc : compression_enabled self' = compression_enabled self)
    by (by destruct Hself as [->|[fresh ->]]).
  assert (Hd : defaults w1 = defaults w)
    by (destruct Hw1 as [->| ->]; [done | apply world_after_defaults]).
  destruct op as [route params|route body|route body|route];
    cbn [func_of] in Hs.
  - rewrite (get_func_sends route params self' w1 base Hh) in Hs.
    apply world_after_inj in Hs as <-. cbn. rewrite Hd. by destruct params.
  - rewrite (post_func_sends route body self' w1 base Hh), Hc in Hs.
    apply world_after_inj in Hs as <-. rewrite Hd.
    destruct body, (compression_enabled self); cbn; eauto.
  - rewrite (put_func_sends route body self' w1 base Hh), Hc in Hs.
    apply world_after_inj in Hs as <-. rewrite Hd.
    destruct body, (compression_enabled self); cbn; eauto.
  - rewrite (delete_func_sends route self' w1 base Hh) in Hs.
    by apply world_after_inj in Hs as <-.
Qed.

End Frame.


(** What a fetch that returns has done: it has read the clock before the
    exchange and taken the two fields from the decoded body of a response
    whose status is no client or server error. *)
Lemma fetch_access_token_returns (self : APIManager.t) (w w1 : World)
    (fresh : Token.t) :
  fetch_access_token self w = (Return fresh, w1) ->
  Token.requested_at fresh = now w
  /\ exists r document seconds,
      outcome (net w (token_request self)) = Responds r
      /\ decoded r = Some document
      /\ ~ 400 <= status_code r < 600
      /\ getitem document "access_token" = Return (Token.access_token fresh)
      /\ getitem document "expires_in" = Return seconds
      /\ timedelta seconds = Return (Token.expires_in fresh).
Proof.
  unfold fetch_access_token. step_io. fold (token_request self).
  rewrite send_run. unfold response_json, raise_for_status.
  destruct (outcome _) as [r|] eqn:Hr; [|discriminate].
  destruct (decoded r) as [document|] eqn:Hdoc; [|discriminate].
  destruct (Z.leb_spec 400 (status_code r)), (Z.ltb_spec (status_code r) 600);
    cbn [andb]; try discriminate;
    (destruct (getitem document "access_token") as [value|] eqn:Hvalue;
       [|discriminate];
     destruct (getitem document "expires_in") as [seconds|] eqn:Hseconds;
       [|discriminate];
     destruct (timedelta seconds) as [expiry|] eqn:Hexpiry; [|discriminate];
     intros [= <- <-]; split; [reflexivity|];
     exists r, document, seconds; split_and!; try done; lia).
Qed.

Lemma fetch_access_token_run (self : APIManager.t) (w : World) (r : Response)
    (document : json) :
  outcome (net w (token_request self)) = Responds r ->
  decoded r = Some document ->
  ~ 400 <= status_code r < 600 ->
  fetch_access_token self w
  = (match getitem document "access_token" with
     | Raise e => Raise e
     | Return value =>
         match getitem document "expires_in" with
         | Raise e => Raise e
         | Return seconds =>
             match timedelta seconds with
             | Raise e => Raise e
             | Return lifetime =>
                 Return {| Token.access_token := value;
                           Token.expires_in := lifetime;
                           Token.requested_at := now w |}
             end
         end
     end, world_after w (token_request self)).
Proof.
  intros Hr Hdoc Hstatus.
  unfold fetch_access_token. step_io. fold (token_request self).
  rewrite send_run, Hr. unfold response_json, raise_for_status. rewrite Hdoc.
  replace ((400 <=? status_code r) && (status_code r <? 600)) with false
    by (symmetry; apply andb_false_iff;
        destruct (Z.leb_spec 400 (status_code r)),
          (Z.ltb_spec (status_code r) 600); auto; lia).
  destruct (getitem document "access_token"); [|reflexivity].
  destruct (getitem document "expires_in"); [|reflexivity].
  by destruct (timedelta _).
Qed.

(** C4 (amended).  [is_access_token_valid] changes nothing, and for a
    stored token whose expiry [requested_at + expires_in] is a [datetime]
    its answer is [true] exactly when the clock reads less than the expiry.
    A token that [fetch_access_token] has returned carries the clock
    reading from before the exchange as [requested_at]: whichever instance
    holds it, the check answers [true] exactly as long as the clock reads
    less than that reading plus [expires_in], so right after the fetch
    only when the exchange took less than [expires_in], and never from
    then on once the clock has reached [requested_at + expires_in]. *)
Theorem is_access_token_valid_iff (self : APIManager.t) (token : Token.t)
    (w : World) :
  access_token self = Some token ->
  datetime_min <= Token.requested_at token + Token.expires_in token
               <= datetime_max ->
  (exists valid,
     is_access_token_valid self w = (Return valid, w)
     /\ (valid = true
         <-> now w < Token.requested_at token + Token.expires_in token))
  /\ forall fetcher w0 w1 fetched,
      fetch_access_token fetcher w0 = (Return fetched, w1) ->
      Token.requested_at fetched = now w0
      /\ forall holder w2,
          access_token holder = Some fetched ->
          datetime_min <= now w0 + Token.expires_in fetched <= datetime_max ->
          exists valid,
            is_access_token_valid holder w2 = (Return valid, w2)
            /\ (valid = true <-> now w2 < now w0 + Token.expires_in fetched).
Proof.
  assert (Hcheck : forall holder held w2,
            access_token holder = Some held ->
            datetime_min <= Token.requested_at held + Token.expires_in held
                         <= datetime_max ->
            exists valid,
              is_access_token_valid holder w2 = (Return valid, w2)
              /\ (valid = true
                  <-> now w2
                      < Token.requested_at held + Token.expires_in held)).
  { intros holder held w2 Hheld Hrange. eexists. split.
    - rewrite (is_access_token_valid_run holder held w2 Hheld).
      by rewrite (datetime_add_in_range _ _ Hrange).
    - rewrite Z.gtb_ltb. apply Z.ltb_lt. }
  intros Htoken Hrange. split; [by apply Hcheck|].
  intros fetcher w0 w1 fetched [Hat _]%fetch_access_token_returns.
  split; [done|]. intros holder w2 Hheld Hfetched.
  rewrite <- Hat in *. by apply Hcheck.
Qed.

(** C5 (amended).  When the token endpoint answers with a 4xx or 5xx
    status, [fetch_access_token] fails.  The body is decoded before the
    status is checked: when the body is a JSON document the failure is the
    [HTTPError] for that response, and when it is not, the failure is the
    decoding error, whatever the status. *)
Theorem fetch_access_token_on_http_error (self : APIManager.t) (w : World)
    (r : Response) :
  outcome (net w (token_request self)) = Responds r ->
  400 <= status_code r < 600 ->
  fetch_access_token self w =
    (Raise (match decoded r with
            | Some _ => HTTPError r
            | None => JSONDecodeError
            end),
     world_after w (token_request self)).
Proof.
  intros Hr Hstatus.
  unfold fetch_access_token. step_io. fold (token_request self).
  rewrite send_run, Hr. unfold response_json, raise_for_status.
  destruct (decoded r); [|reflexivity].
  replace (400 <=? status_code r) with true by (symmetry; apply Z.leb_le; lia).
  replace (status_code r <? 600) with true by (symmetry; apply Z.ltb_lt; lia).
  reflexivity.
Qed.

(** C6.  [__init__] raises [ValueError] without touching the network when
    the client id or the client secret is empty, whatever the host name.
    With both present it probes the host, and a [ConnectionError] from the
    probe becomes a [ValueError], the probe being the only call made.  A
    construction that returns has made the probe and then the token
    request, and the instance it returns has the four settings it was
    given and holds the token that this fetch returned.  It does return
    when the probe is answered and the token endpoint answers with a
    usable document: the stored token then has the value under
    [access_token], the lifetime under [expires_in] and the clock reading
    from after the probe. *)
Theorem init_cases (client_id client_secret hostname : string)
    (compression : bool) (w : World) :
  let blank := unauthenticated client_id client_secret hostname compression in
  let w1 := world_after w (probe hostname) in
  (client_id = "" \/ client_secret = "" ->
     exists message,
       __init__ client_id client_secret hostname compression w
       = (Raise (ValueError message), w))
  /\ (client_id <> "" -> client_secret <> "" ->
       outcome (net w (probe hostname)) = Fails ConnectionError ->
       __init__ client_id client_secret hostname compression w
       = (Raise (ValueError ("Host at " +:+ hostname
                             +:+ " is not reachable")), w1)
       /\ issued w w1 = [probe hostname])
  /\ (forall self w',
       __init__ client_id client_secret hostname compression w
       = (Return self, w') ->
       __client_id self = client_id
       /\ __client_secret self = client_secret
       /\ __hostname self = hostname
       /\ compression_enabled self = compression
       /\ issued w w' = [probe hostname; token_request self]
       /\ exists token,
            access_token self = Some token
            /\ fetch_access_token blank w1 = (Return token, w'))
  /\ (client_id <> "" -> client_secret <> "" ->
       forall r0 r document value seconds lifetime,
         outcome (net w (probe hostname)) = Responds r0 ->
         outcome (net w1 (token_request blank)) = Responds r ->
         decoded r = Some document ->
         ~ 400 <= status_code r < 600 ->
         getitem document "access_token" = Return value ->
         getitem document "expires_in" = Return seconds ->
         timedelta seconds = Return lifetime ->
         __init__ client_id client_secret hostname compression w
         = (Return {| __client_id := client_id;
                      __client_secret := client_secret;
                      __hostname := hostname;
                      compression_enabled := compression;
                      access_token :=
                        Some {| Token.access_token := value;
                                Token.expires_in := lifetime;
                                Token.requested_at := now w1 |} |},
            world_after w1 (token_request blank))).
Proof.
  intros blank w1. subst blank w1. split_and!.
  - intros [-> | ->]; unfold __init__; cbn [falsy].
    + by eexists.
    + destruct (falsy client_id); by eexists.
  - intros Hid Hsecret Hprobe. unfold __init__.
    destruct client_id as [|c1 id]; [done|].
    destruct client_secret as [|c2 secret]; [done|]. cbn [falsy].
    fold (probe hostname). step_io. rewrite send_run, Hprobe.
    split; [done|]. apply issued_after.
  - intros self w'. unfold __init__.
    destruct client_id as [|c1 id]; [done|].
    destruct client_secret as [|c2 secret]; [done|]. cbn [falsy].
    fold (probe hostname). step_io. rewrite send_run.
    fold (unauthenticated (String c1 id) (String c2 secret) hostname
            compression).
    destruct (outcome (net w (probe hostname))) as [r0|e]; [|by destruct e].
    pose proof (fetch_access_token_world
                  (unauthenticated (String c1 id) (String c2 secret) hostname
                     compression)
                  (world_after w (probe hostname))) as Hworld.
    destruct (fetch_access_token _ _) as [[token|e] w2]; [|done].
    cbn [snd] in Hworld. intros [= <- <-]. subst w2.
    split_and!; try done; [apply issued_after_after|].
    by exists token.
  - intros Hid Hsecret r0 r document value seconds lifetime Hprobe Hr Hdoc
      Hstatus Hvalue Hseconds Hlifetime.
    unfold __init__.
    destruct client_id as [|c1 id]; [done|].
    destruct client_secret as [|c2 secret]; [done|]. cbn [falsy].
    fold (probe hostname). step_io. rewrite send_run, Hprobe.
    fold (unauthenticated (String c1 id) (String c2 secret) hostname
            compression).
    rewrite (fetch_access_token_run _ _ r document Hr Hdoc Hstatus).
    by rewrite Hvalue, Hseconds, Hlifetime.
Qed.

(** C7.  With a string as stored token, [get_authorization_header] is
    exactly the two-entry map with [content-type: application/json] and
    [Authorization: Bearer <token>]; [get_token_authorization_header] is
    exactly the two-entry map with the form content type and
    [Authorization: Basic <encoded>], where [encoded] is the base64
    encoding of [client_id:client_secret], which decodes back to it. *)
Theorem authorization_headers (self : APIManager.t) (token : Token.t)
    (bearer_token : string) :
  access_token self = Some token ->
  Token.access_token token = JStr bearer_token ->
  get_authorization_header self
  = Return {[ "content-type" := "application/json";
              "Authorization" := "Bearer " +:+ bearer_token ]}
  /\ exists encoded,
      get_token_authorization_header self
      = {[ "content-type" := "application/x-www-form-urlencoded";
           "Authorization" := "Basic " +:+ encoded ]}
      /\ encoded
         = Base64.b64encode (__client_id self +:+ ":" +:+ __client_secret self)
      /\ Base64.b64decode encoded
         = Some (__client_id self +:+ ":" +:+ __client_secret self).
Proof.
  intros Htoken Hstring. split.
  - unfold get_authorization_header, getattr_access_token, bearer.
    rewrite Htoken, Hstring. by rewrite insert_empty.
  - eexists. split_and!; [|reflexivity|].
    + unfold get_token_authorization_header. by rewrite insert_empty.
    + apply b64decode_b64encode.
Qed.

End Facts.

(** ** The theorems at sample inputs *)


Lemma failed_fetch_leaves_client_witness :
  access_token sample_client = Some sample_token
  /\ datetime_min
     <= Token.requested_at sample_token + Token.expires_in sample_token
     <= datetime_max
  /\ Token.requested_at sample_token + Token.expires_in sample_token
     <= now stale
  /\ fetch_access_token (H := refusing_env) sample_client stale
     = (Raise (HTTPError (refused (token_request sample_client))),
        world_after (H := refusing_env) stale (token_request sample_client))
  /\ run (H := refusing_env) (Delete "owners/7") sample_client stale
     = (Raise (HTTPError (refused (token_request sample_client))),
        sample_client,
        world_after (H := refusing_env) stale (token_request sample_client))
  /\ issued stale
       (world_after (H := refusing_env) stale (token_request sample_client))
     = [token_request sample_client].
Proof.
  assert (Hrange : datetime_min
                   <= Token.requested_at sample_token
                      + Token.expires_in sample_token
                   <= datetime_max) by (vm_compute; split; discriminate).
  assert (Hexpired : Token.requested_at sample_token
                     + Token.expires_in sample_token <= now stale)
    by (vm_compute; discriminate).
  assert (Hfetch : fetch_access_token (H := refusing_env) sample_client stale
                   = (Raise (HTTPError (refused (token_request sample_client))),
                      world_after (H := refusing_env) stale
                        (token_request sample_client)))
    by reflexivity.
  split; [reflexivity|]. split; [exact Hrange|]. split; [exact Hexpired|].
  split; [exact Hfetch|].
  exact (failed_fetch_leaves_client (H := refusing_env) (Delete "owners/7")
           sample_client sample_token stale _ _ eq_refl Hrange Hexpired
           Hfetch).
Defined.

Lemma is_access_token_valid_iff_witness :
  access_token sample_client = Some sample_token
  /\ datetime_min
     <= Token.requested_at sample_token + Token.expires_in sample_token
     <= datetime_max
  /\ (exists valid,
        is_access_token_valid sample_client early = (Return valid, early)
        /\ (valid = true
            <-> now early
                < Token.requested_at sample_token
                  + Token.expires_in sample_token))
  /\ fetch_access_token (H := sandbox_env) sample_client stale
     = (Return renewed_token,
        world_after (H := sandbox_env) stale (token_request sample_client))
  /\ Token.requested_at renewed_token = now stale
  /\ exists valid,
       is_access_token_valid (set_access_token sample_client renewed_token)
         (world_after (H := sandbox_env) stale (token_request sample_client))
       = (Return valid,
          world_after (H := sandbox_env) stale (token_request sample_client))
       /\ (valid = true
           <-> now (world_after (H := sandbox_env) stale
                      (token_request sample_client))
               < now stale + Token.expires_in renewed_token).
Proof.
  assert (Hrange : datetime_min
                   <= Token.requested_at sample_token
                      + Token.expires_in sample_token
                   <= datetime_max) by (vm_compute; split; discriminate).
  assert (Hfetch :
    fetch_access_token (H := sandbox_env) sample_client stale
    = (Return renewed_token,
       world_after (H := sandbox_env) stale (token_request sample_client)))
    by (vm_compute; reflexivity).
  assert (Hlater : datetime_min
                   <= now stale + Token.expires_in renewed_token
                   <= datetime_max) by (vm_compute; split; discriminate).
  destruct (is_access_token_valid_iff (H := sandbox_env) sample_client
              sample_token early eq_refl Hrange) as [Hstored Hfetched].
  destruct (Hfetched sample_client stale _ renewed_token Hfetch)
    as [Hat Hheld].
  split; [reflexivity|]. split; [exact Hrange|]. split; [exact Hstored|].
  split; [exact Hfetch|]. split; [exact Hat|].
  exact (Hheld (set_access_token sample_client renewed_token) _ eq_refl
           Hlater).
Defined.

Lemma fetch_access_token_on_http_error_witness :
  outcome (net (Collaborators := refusing_env) stale
             (token_request sample_client))
  = Responds (refused (token_request sample_client))
  /\ 400 <= status_code (refused (token_request sample_client)) < 600
  /\ fetch_access_token (H := refusing_env) sample_client stale
     = (Raise (HTTPError (refused (token_request sample_client))),
        world_after (H := refusing_env) stale (token_request sample_client)).
Proof.
  assert (Hstatus :
    400 <= status_code (refused (token_request sample_client)) < 600)
    by (cbn; lia).
  split; [reflexivity|]. split; [exact Hstatus|].
  exact (fetch_access_token_on_http_error (H := refusing_env) sample_client
           stale (refused (token_request sample_client)) eq_refl Hstatus).
Defined.

Lemma authorization_headers_witness :
  access_token sample_client = Some sample_token
  /\ Token.access_token sample_token = JStr "T0"
  /\ get_authorization_header sample_client
     = Return {[ "content-type" := "application/json";
                 "Authorization" := "Bearer T0" ]}
  /\ exists encoded,
       get_token_authorization_header sample_client
       = {[ "content-type" := "application/x-www-form-urlencoded";
            "Authorization" := "Basic " +:+ encoded ]}
       /\ encoded = Base64.b64encode ("id" +:+ ":" +:+ "secret")
       /\ Base64.b64decode encoded = Some ("id" +:+ ":" +:+ "secret").
Proof.
  split; [reflexivity|]. split; [reflexivity|].
  exact (authorization_headers sample_client sample_token "T0" eq_refl eq_refl).
Defined.

Lemma body_payload_witness :
  (forall mtime,
     StoredGzip.gunzip
       (gzip_member (Collaborators := sandbox_env) mtime (dumps sample_document))
     = Some [dumps sample_document])
  /\ sample_post
     ∈ issued early
         (run (H := sandbox_env) (Post "events" (Given sample_document))
            sample_client early).2
  /\ sample_post <> token_request sample_client
  /\ StoredGzip.gunzip (prepare_body sample_post)
     = Some [dumps sample_document]
  /\ headers sample_post !! "content-encoding" = Some "gzip".
Proof.
  assert (Hgunzip : forall mtime,
            StoredGzip.gunzip
              (gzip_member (Collaborators := sandbox_env) mtime
                 (dumps sample_document))
            = Some [dumps sample_document])
    by (intros mtime; vm_compute; reflexivity).
  assert (Hin : sample_post
                ∈ issued early
                    (run (H := sandbox_env)
                       (Post "events" (Given sample_document))
                       sample_client early).2).
  { replace (issued early _) with [sample_post] by (vm_compute; reflexivity).
    apply list_elem_of_here. }
  assert (Hother : sample_post <> token_request sample_client).
  { intros E. apply (f_equal url) in E. vm_compute in E. discriminate E. }
  split; [exact Hgunzip|]. split; [exact Hin|]. split; [exact Hother|].
  exact (proj1 (body_payload (H := sandbox_env) StoredGzip.gunzip
                  (Post "events" (Given sample_document)) sample_client early
                  "events" sample_document sample_post
                  Hgunzip (or_introl eq_refl) Hin Hother) eq_refl).
Defined.

Lemma default_containers_shared_witness :
  (forall w req,
     store (net (Collaborators := sandbox_env) w req) = defaults w)
  /\ defaults
       (run (H := sandbox_env) (Get "owners" Omitted) sample_client early).2
     = defaults early
  /\ params sample_get = Some (get_params (defaults early))
  /\ shares sample_get = Some GetParams.
Proof.
  assert (Hframe : forall w req,
            store (net (Collaborators := sandbox_env) w req) = defaults w)
    by reflexivity.
  assert (Hin : sample_get
                ∈ issued early
                    (run (H := sandbox_env) (Get "owners" Omitted)
                       sample_client early).2).
  { replace (issued early _) with [sample_get] by (vm_compute; reflexivity).
    apply list_elem_of_here. }
  assert (Hother : sample_get <> token_request sample_client).
  { intros E. apply (f_equal method) in E. discriminate E. }
  destruct (default_containers_shared (H := sandbox_env) Hframe
              (Get "owners" Omitted) sample_client early) as [Hkept Hcalls].
  split; [exact Hframe|]. split; [exact Hkept|].
  exact (Hcalls sample_get Hin Hother).
Defined.

Lemma init_cases_witness :
  outcome (net (Collaborators := sandbox_env) (boot 0) (probe sandbox_host))
  = Responds (sandbox (probe sandbox_host))
  /\ __init__ (H := sandbox_env) "id" "secret" sandbox_host true (boot 0)
     = (Return sandbox_client,
        world_after (H := sandbox_env)
          (world_after (H := sandbox_env) (boot 0) (probe sandbox_host))
          (token_request sandbox_client))
  /\ issued (boot 0)
       (world_after (H := sandbox_env)
          (world_after (H := sandbox_env) (boot 0) (probe sandbox_host))
          (token_request sandbox_client))
     = [probe sandbox_host; token_request sandbox_client]
  /\ __init__ (H := unreachable) "id" "secret" sandbox_host true (boot 0)
     = (Raise (ValueError ("Host at " +:+ sandbox_host
                           +:+ " is not reachable")),
        world_after (H := unreachable) (boot 0) (probe sandbox_host)).
Proof.
  assert (Hid : "id"%string <> ""%string) by discriminate.
  assert (Hsecret : "secret"%string <> ""%string) by discriminate.
  destruct (init_cases (H := sandbox_env) "id" "secret" sandbox_host true
              (boot 0)) as (_ & _ & Hreturned & Hreturns).
  destruct (init_cases (H := unreachable) "id" "secret" sandbox_host true
              (boot 0)) as (_ & Hunreachable & _).
  assert (Hinit :
    __init__ (H := sandbox_env) "id" "secret" sandbox_host true (boot 0)
    = (Return sandbox_client,
       world_after (H := sandbox_env)
         (world_after (H := sandbox_env) (boot 0) (probe sandbox_host))
         (token_request sandbox_client))).
  { assert (Hstatus :
      ~ 400 <= status_code (sandbox (token_request sandbox_client)) < 600)
      by (intros [Hlow _]; vm_compute in Hlow; by apply Hlow).
    exact (Hreturns Hid Hsecret (sandbox (probe sandbox_host))
             (sandbox (token_request sandbox_client)) token_document
             (JStr "T1") (JNum 3600) (3600 * 1000000) eq_refl eq_refl
             eq_refl Hstatus eq_refl eq_refl eq_refl). }
  split; [reflexivity|]. split; [exact Hinit|].
  split; [exact (proj1 (proj2 (proj2 (proj2 (proj2
                   (Hreturned _ _ Hinit))))))|].
  exact (proj1 (Hunreachable Hid Hsecret eq_refl)).
Defined.

Lemma urls_and_routes_witness :
  access_token sample_client = Some sample_token
  /\ Token.access_token sample_token = JStr "T0"
  /\ datetime_min
     <= Token.requested_at sample_token + Token.expires_in sample_token
     <= datetime_max
  /\ now early
     < Token.requested_at sample_token + Token.expires_in sample_token
  /\ exists req,
       issued early
         (run (H := sandbox_env) (Get "owners" Omitted) sample_client early).2
       = [req]
       /\ method req = GET
       /\ url req = get_api_url sample_client +:+ "owners".
Proof.
  assert (Hrange : datetime_min
                   <= Token.requested_at sample_token
                      + Token.expires_in sample_token
                   <= datetime_max) by (vm_compute; split; discriminate).
  assert (Hvalid : now early
                   < Token.requested_at sample_token
                     + Token.expires_in sample_token) by (cbn; lia).
  split; [reflexivity|]. split; [reflexivity|]. split; [exact Hrange|].
  split; [exact Hvalid|].
  exact (proj1 (proj2 (proj2 (proj2 (proj2
           (urls_and_routes (H := sandbox_env) (Get "owners" Omitted)
              sample_client early)))))
           sample_token "T0" eq_refl eq_refl Hrange Hvalid).
Defined.

(** ** Where the claims as stated fail *)

(** C1, as stated, at status 304: the status is not a 2xx one and not 400 or
    409, and [validate_response] returns normally. *)
Lemma not_modified_passes_validation :
  ~ 200 <= status_code not_modified < 300
  /\ status_code not_modified <> 400 /\ status_code not_modified <> 409
  /\ validate_response sample_client not_modified early = (Return tt, early).
Proof. cbn. repeat split; (lia || reflexivity). Qed.

(** C3, at the body [None]: the JSON encoding of the body is [null].  With
    compression enabled [post] sends the gzip of [null]; with compression
    disabled the same call sends no payload at all. *)
Lemma null_body_dropped_without_compression :
  dumps JNull = "null"
  /\ compression_enabled sample_client = true
  /\ map (fun req => StoredGzip.gunzip (prepare_body req))
       (issued early
          (run (H := sandbox_env) (Post "events" (Given JNull)) sample_client
             early).2)
     = [Some ["null"]]
  /\ compression_enabled plain_client = false
  /\ map prepare_body
       (issued early
          (run (H := sandbox_env) (Post "events" (Given JNull)) plain_client
             early).2)
     = [""].
Proof. repeat split; vm_compute; reflexivity. Qed.

(** C4, as stated, at a token endpoint that hands out a token with
    [expires_in] 0 and answers at once: the fetch succeeds, and the check
    made right after it, at the same clock reading, answers [false]. *)
Lemma fetched_token_can_be_expired_at_once :
  fetch_access_token (H := lapsed_env) sample_client stale
  = (Return lapsed_token,
     world_after (H := lapsed_env) stale (token_request sample_client))
  /\ now (world_after (H := lapsed_env) stale (token_request sample_client))
     = now stale
  /\ is_access_token_valid (set_access_token sample_client lapsed_token)
       (world_after (H := lapsed_env) stale (token_request sample_client))
     = (Return false,
        world_after (H := lapsed_env) stale (token_request sample_client)).
Proof. repeat split; vm_compute; reflexivity. Qed.

(** C5, as stated, at a 502 whose body is a page of HTML: the response is
    both an HTTP error and malformed, and the failure that surfaces is the
    decoding error, not the HTTP error. *)
Lemma malformed_error_surfaces_decoding_error :
  outcome (net (Collaborators := gateway_env) stale
             (token_request sample_client))
  = Responds (bad_gateway (token_request sample_client))
  /\ status_code (bad_gateway (token_request sample_client)) = 502
  /\ decoded (bad_gateway (token_request sample_client)) = None
  /\ (fetch_access_token (H := gateway_env) sample_client stale).1
     = Raise JSONDecodeError
  /\ (fetch_access_token (H := gateway_env) sample_client stale).1
     <> Raise (HTTPError (bad_gateway (token_request sample_client))).
Proof. cbn. repeat split; (reflexivity || discriminate). Qed.

(** C9, as stated, at two successive [get] calls that both omit [params],
    over a transport that writes to the [params] dictionary it is handed:
    both calls pass the same object, and the second one sends what the
    first one left in it. *)
Lemma default_params_alias_across_calls :
  map shares (sent (twice_owners).2) = [Some GetParams; Some GetParams]
  /\ map params (sent (twice_owners).2)
     = [Some []; Some [("page", "2")]%string].
Proof. split; vm_compute; reflexivity. Qed.

(** ** The scenarios of the specification, run *)

(** A client built against the sandbox holds the token [T1], which is
    valid right away and no longer valid 3601 seconds later; the next
    [get] then fetches a token before it sends the GET. *)
Example construct_then_expire :
  (__init__ (H := sandbox_env) "id" "secret" sandbox_host true (boot 0)).1
  = Return sandbox_client
  /\ (is_access_token_valid sandbox_client (boot 500000)).1 = Return true
  /\ (is_access_token_valid sandbox_client (boot 3601250000)).1 = Return false
  /\ map (fun req => (method req, url req))
       (sent (run (H := sandbox_env) (Get "owners" Omitted) sandbox_client
                (boot 3601250000)).2)
     = [(POST, get_auth_url sandbox_client);
        (GET, sandbox_host +:+ "/api/v3/owners")].
Proof. repeat split; vm_compute; reflexivity. Qed.

(** [post("events", {"x": 1})] with compression on. *)
Example post_events_compressed :
  StoredGzip.gunzip (prepare_body sample_post)
  = Some ["{" +:+ String dquote "x" +:+ String dquote ": 1}"]
  /\ headers sample_post !! "content-encoding" = Some "gzip".
Proof. split; vm_compute; reflexivity. Qed.

(** No host can be reached: the constructor raises [ValueError]; and with
    an empty secret it raises before it looks for the host. *)
Example construct_unreachable :
  (__init__ (H := unreachable) "id" "secret" sandbox_host true (boot 0)).1
  = Raise (ValueError ("Host at " +:+ sandbox_host +:+ " is not reachable"))
  /\ __init__ (H := unreachable) "id" "" sandbox_host true (boot 0)
     = (Raise (ValueError "client_secret cannot be null or empty."), boot 0).
Proof. split; vm_compute; reflexivity. Qed.

(** ** Further properties of the methods *)

Section Coverage.
Context `{Collaborators}.

(** The function under the decorator, once the header is built: one call,
    and the outcome is read off the answer. *)
Lemma func_outcome (op : Operation) (self : APIManager.t) (w : World)
    (base : gmap string string) :
  get_authorization_header self = Return base ->
  exists req,
    func_of op self w
    = (match outcome (net w req) with
       | Fails e => Raise e
       | Responds r =>
           match (validate_response self r (world_after w req)).1 with
           | Return _ => Return r
           | Raise e => Raise e
           end
       end, world_after w req).
Proof.
  intros Hh.
  destruct op as [route [|params]|route [|body]|route [|body]|route];
    cbn [func_of];
    unfold get_func, post_func, put_func, delete_func, bind_default,
      _gzip_encode;
    step_io; rewrite Hh; step_io; try destruct (compression_enabled self);
    step_io; rewrite send_run;
    match goal with |- context [world_after w ?sent] => exists sent end;
    (destruct (outcome _); [|reflexivity]);
    rewrite (surjective_pairing (validate_response _ _ _)),
      validate_response_world;
    by destruct (validate_response _ _ _).1.
Qed.


(** X1.  [fetch_access_token] returns a token exactly when the token
    endpoint answers with a status that is no client or server error and a
    JSON document from which both keys can be read, [expires_in] being a
    number; the token then holds the value under [access_token], the
    lifetime in microseconds and the clock reading from before the
    exchange. *)
Theorem fetch_access_token_returns_iff (self : APIManager.t) (w : World)
    (renewed : Token.t) :
  fetch_access_token self w
  = (Return renewed, world_after w (token_request self))
  <-> exists r document seconds,
        outcome (net w (token_request self)) = Responds r
        /\ decoded r = Some document
        /\ ~ 400 <= status_code r < 600
        /\ getitem document "access_token"
           = Return (Token.access_token renewed)
        /\ getitem document "expires_in" = Return seconds
        /\ timedelta seconds = Return (Token.expires_in renewed)
        /\ Token.requested_at renewed = now w.
Proof.
  split.
  - intros (Hat & r & document & seconds & Hr & Hdoc & Hstatus & Hvalue
            & Hsec & Hlife)%fetch_access_token_returns.
    exists r, document, seconds. by split_and!.
  - intros (r & document & seconds & Hr & Hdoc & Hstatus & Hvalue & Hsec
            & Hlife & Hat).
    rewrite (fetch_access_token_run self w r document Hr Hdoc Hstatus).
    rewrite Hvalue, Hsec, Hlife. f_equal. f_equal.
    destruct renewed; cbn in *. by subst.
Qed.

(** X2.  When the token endpoint answers without an error status but with
    a document the code cannot use, [fetch_access_token] raises, after its
    one call: [TypeError] when the document is no object, [KeyError] for
    [access_token] when that key is missing (whatever else is), [KeyError]
    for [expires_in] when only that one is missing, and [TypeError] when
    [expires_in] is no number. *)
Theorem fetch_access_token_unusable_document (self : APIManager.t)
    (w : World) (r : Response) (document : json) :
  outcome (net w (token_request self)) = Responds r ->
  decoded r = Some document ->
  ~ 400 <= status_code r < 600 ->
  let raises e :=
    fetch_access_token self w
    = (Raise e, world_after w (token_request self)) in
  ((forall items, document <> JObj items) -> raises TypeError)
  /\ (forall items, document = JObj items ->
        assoc "access_token" items = None ->
        raises (KeyError "access_token"))
  /\ (forall items value, document = JObj items ->
        assoc "access_token" items = Some value ->
        assoc "expires_in" items = None ->
        raises (KeyError "expires_in"))
  /\ (forall items value seconds, document = JObj items ->
        assoc "access_token" items = Some value ->
        assoc "expires_in" items = Some seconds ->
        (forall n, seconds <> JNum n) -> (forall b, seconds <> JBool b) ->
        raises TypeError).
Proof.
  intros Hr Hdoc Hstatus raises. subst raises. cbn beta.
  rewrite (fetch_access_token_run self w r document Hr Hdoc Hstatus).
  split_and!.
  - intros Hnot. destruct document; try reflexivity. by destruct (Hnot items).
  - intros items -> Hmissing. cbn. by rewrite Hmissing.
  - intros items value -> Hvalue Hmissing. cbn. by rewrite Hvalue, Hmissing.
  - intros items value seconds -> Hvalue Hseconds Hnum Hbool. cbn.
    rewrite Hvalue, Hseconds.
    destruct seconds; try reflexivity;
      [by destruct (Hbool b) | by destruct (Hnum n)].
Qed.


Lemma validate_response_verdict (self : APIManager.t) (r : Response)
    (w : World) :
  (validate_response self r w).1
  = if decide (status_code r = 400 \/ status_code r = 409)
    then Raise (ValueError (content r))
    else if decide (400 <= status_code r < 600)
         then Raise (HTTPError r)
         else Return tt.
Proof.
  unfold validate_response, raise, lift, raise_for_status.
  destruct (Z.eqb_spec (status_code r) 400), (Z.eqb_spec (status_code r) 409),
    (Z.leb_spec 400 (status_code r)), (Z.ltb_spec (status_code r) 600);
    cbn [orb andb fst]; repeat case_decide; try reflexivity; lia.
Qed.

Lemma string_token_header (self : APIManager.t) (token : Token.t)
    (value : string) :
  access_token self = Some token ->
  Token.access_token token = JStr value ->
  get_authorization_header self
  = Return (<["content-type" := "application/json"]>
              (<["Authorization" := "Bearer " +:+ value]> ∅)).
Proof.
  intros Htoken Hvalue.
  unfold get_authorization_header, getattr_access_token, bearer.
  by rewrite Htoken, Hvalue.
Qed.

(** X3.  With a string token stored whose expiry is a [datetime] that the
    clock has not reached, an operation makes exactly one call, to the
    route under the API root, and its outcome is read off the answer: a
    failure of the transport is raised as it is, a 400 or 409 is raised as
    [ValueError] with the body, any other status from 400 to 599 as
    [HTTPError], and any other response is returned; the instance is
    unchanged in every case. *)
Theorem operation_outcome (op : Operation) (self : APIManager.t)
    (token : Token.t) (value : string) (w : World) :
  access_token self = Some token ->
  Token.access_token token = JStr value ->
  datetime_min <= Token.requested_at token + Token.expires_in token
               <= datetime_max ->
  now w < Token.requested_at token + Token.expires_in token ->
  exists req,
    method req = verb_of op
    /\ url req = get_api_url self +:+ route_of op
    /\ run op self w
       = (match outcome (net w req) with
          | Fails e => Raise e
          | Responds r =>
              if decide (status_code r = 400 \/ status_code r = 409)
              then Raise (ValueError (content r))
              else if decide (400 <= status_code r < 600)
                   then Raise (HTTPError r)
                   else Return r
          end, self, world_after w req).
Proof.
  intros Htoken Hvalue Hrange Hvalid.
  pose proof (string_token_header self token value Htoken Hvalue) as Hh.
  destruct (func_outcome op self w _ Hh) as (req & Hfunc).
  destruct (func_sends op self w _ Hh) as (req' & Hs & Hm & Hu & _).
  rewrite Hfunc in Hs. cbn [snd] in Hs. apply world_after_inj in Hs as <-.
  exists req. split; [done|]. split; [done|].
  rewrite (run_valid op self token w Htoken Hrange Hvalid), Hfunc.
  cbn [fst snd].
  f_equal. f_equal. destruct (outcome (net w req)) as [r|e]; [|done].
  rewrite validate_response_verdict. by repeat case_decide.
Qed.

(** X4.  A response that an operation returns is never a client or server
    error: its status is outside 400..599, and it is the answer the
    network gave to the last call of the operation, which has the verb of
    the operation. *)
Theorem returned_response_is_no_error (op : Operation) (self : APIManager.t)
    (w : World) (response : Response) :
  (run op self w).1.1 = Return response ->
  ~ 400 <= status_code response < 600
  /\ exists w1 req,
       (run op self w).2 = world_after w1 req
       /\ method req = verb_of op
       /\ outcome (net w1 req) = Responds response.
Proof.
  assert (Hfunc : forall self' w1,
            (func_of op self' w1).1 = Return response ->
            ~ 400 <= status_code response < 600
            /\ exists req,
                 (func_of op self' w1).2 = world_after w1 req
                 /\ method req = verb_of op
                 /\ outcome (net w1 req) = Responds response).
  { intros self' w1 Hret.
    destruct (func_calls op self' w1)
      as [(e & _ & Hs)|(base & req' & Hh & Hs & Hm & _)];
      [by rewrite Hs in Hret|].
    destruct (func_outcome op self' w1 base Hh) as (req & Hout).
    rewrite Hout in Hs, Hret. cbn [fst snd] in Hs, Hret.
    apply world_after_inj in Hs as ->.
    destruct (outcome (net w1 req')) as [r|e] eqn:Hanswer; [|done].
    rewrite validate_response_verdict in Hret.
    repeat case_decide; simplify_eq.
    split; [done|]. exists req'. by rewrite Hout. }
  destruct (run_cases op self w)
    as [(e & _ & ->)|[(_ & ->)|[(_ & e & _ & ->)|(_ & renewed & _ & ->)]]];
    cbn [fst snd]; try done.
  - intros (Hok & req & ?)%Hfunc. split; [done|]. by exists w, req.
  - intros (Hok & req & ?)%Hfunc. split; [done|].
    by exists (world_after w (token_request self)), req.
Qed.


Lemma issued_func (op : Operation) (self self' : APIManager.t) (w : World) :
  __hostname self' = __hostname self ->
  issued w (func_of op self' w).2 = []
  \/ exists req,
       issued w (func_of op self' w).2 = [req]
       /\ is_fetch self req = false.
Proof.
  intros Hhost.
  destruct (func_calls op self' w)
    as [(e & _ & ->)|(base & req & _ & -> & _ & Hu & _)].
  - left. apply issued_refl.
  - right. exists req. split; [apply issued_after|].
    apply (is_fetch_resource self (route_of op)).
    rewrite Hu. unfold get_api_url. by rewrite Hhost.
Qed.

Lemma issued_func_after (op : Operation) (self self' : APIManager.t)
    (w : World) (first : Request) :
  __hostname self' = __hostname self ->
  issued w (func_of op self' (world_after w first)).2 = [first]
  \/ exists req,
       issued w (func_of op self' (world_after w first)).2 = [first; req]
       /\ is_fetch self req = false.
Proof.
  intros Hhost.
  destruct (func_calls op self' (world_after w first))
    as [(e & _ & ->)|(base & req & _ & -> & _ & Hu & _)].
  - left. apply issued_after.
  - right. exists req. split; [apply issued_after_after|].
    apply (is_fetch_resource self (route_of op)).
    rewrite Hu. unfold get_api_url. by rewrite Hhost.
Qed.

(** X5.  An operation never retries: whatever the answers, it makes at most
    one call of the token endpoint and at most one other call. *)
Theorem no_retry (op : Operation) (self : APIManager.t) (w : World) :
  let calls := issued w (run op self w).2 in
  (fetches self calls <= 1)%nat
  /\ (length calls <= fetches self calls + 1)%nat.
Proof.
  intros calls. subst calls.
  destruct (run_cases op self w)
    as [(e & _ & ->)|[(_ & ->)|[(_ & e & _ & ->)|(_ & renewed & _ & ->)]]];
    cbn [snd].
  - rewrite issued_refl. cbn. lia.
  - destruct (issued_func op self self w eq_refl) as [->|(req & -> & Hreq)].
    + cbn. lia.
    + rewrite fetches_cons, Hreq. cbn. lia.
  - rewrite issued_after, fetches_cons, is_fetch_token_request. cbn. lia.
  - destruct (issued_func_after op self (set_access_token self renewed) w
                (token_request self) eq_refl) as [->|(req & -> & Hreq)].
    + rewrite fetches_cons, is_fetch_token_request. cbn. lia.
    + rewrite !fetches_cons, is_fetch_token_request, Hreq. cbn. lia.
Qed.

(** X6.  An operation changes nothing of the instance but the token: client
    id, client secret, host name and compression flag are as before, and
    the stored token is either the one from before or the one that the
    fetch of this call returned. *)
Theorem settings_are_kept (op : Operation) (self : APIManager.t) (w : World) :
  let self' := (run op self w).1.2 in
  __client_id self' = __client_id self
  /\ __client_secret self' = __client_secret self
  /\ __hostname self' = __hostname self
  /\ compression_enabled self' = compression_enabled self
  /\ (access_token self' = access_token self
      \/ exists renewed w1,
           fetch_access_token self w = (Return renewed, w1)
           /\ access_token self' = Some renewed).
Proof.
  intros self'. subst self'.
  destruct (run_cases op self w)
    as [(e & _ & ->)|[(_ & ->)|[(_ & e & _ & ->)|(_ & renewed & Hf & ->)]]];
    cbn [fst snd]; split_and!; try done; try (by left).
  right. by exists renewed, (world_after w (token_request self)).
Qed.

(** X7.  Every call of an operation other than the token request carries
    [content-type: application/json] and, as [Authorization], [Bearer]
    followed by the token that the instance holds when the operation is
    over, which is a string. *)
Theorem resource_requests_carry_stored_token (op : Operation)
    (self : APIManager.t) (w : World) (req : Request) :
  req ∈ issued w (run op self w).2 ->
  req <> token_request self ->
  exists token value,
    access_token (run op self w).1.2 = Some token
    /\ Token.access_token token = JStr value
    /\ headers req !! "Authorization" = Some ("Bearer " +:+ value)
    /\ headers req !! "content-type" = Some "application/json".
Proof.
  destruct (run_cases op self w)
    as [(e & _ & ->)|[(_ & ->)|[(_ & e & _ & ->)|(_ & renewed & _ & ->)]]];
    cbn [fst snd]; intros Hin Hother.
  - rewrite issued_refl in Hin. by apply elem_of_nil in Hin.
  - by apply func_bearer in Hin.
  - rewrite issued_after in Hin. by apply list_elem_of_singleton in Hin.
  - destruct (func_calls op (set_access_token self renewed)
                (world_after w (token_request self)))
      as [(e & _ & Hs)|(base & req' & Hh & Hs & _)].
    + rewrite Hs in Hin. cbn [snd] in Hin. rewrite issued_after in Hin.
      by apply list_elem_of_singleton in Hin.
    + apply (func_bearer op _ (world_after w (token_request self))).
      rewrite Hs in Hin |- *. rewrite issued_after_after in Hin.
      rewrite issued_after.
      apply elem_of_cons in Hin as [->|Hin]; [done|].
      apply list_elem_of_singleton in Hin as ->. apply list_elem_of_here.
Qed.

Lemma non_string_token_header (self : APIManager.t) (token : Token.t) :
  access_token self = Some token ->
  (forall value, Token.access_token token <> JStr value) ->
  get_authorization_header self = Raise TypeError.
Proof.
  intros Htoken Hother.
  unfold get_authorization_header, getattr_access_token, bearer.
  rewrite Htoken. destruct (Token.access_token token); try done.
  by destruct (Hother s).
Qed.

(** X8.  A token whose [access_token] is not a string stops every
    operation with [TypeError] before anything is sent for the resource
    (the expiry of the stored token being a [datetime]): with such a
    token stored and still valid nothing is sent at all, and when the
    fetch of the decorator returns such a token it is stored and the token
    request remains the only call. *)
Theorem non_string_token_blocks (op : Operation) (self : APIManager.t)
    (token : Token.t) (w : World) :
  access_token self = Some token ->
  datetime_min <= Token.requested_at token + Token.expires_in token
               <= datetime_max ->
  (now w < Token.requested_at token + Token.expires_in token ->
   (forall value, Token.access_token token <> JStr value) ->
   run op self w = (Raise TypeError, self, w))
  /\ (Token.requested_at token + Token.expires_in token <= now w ->
      forall renewed w1,
        fetch_access_token self w = (Return renewed, w1) ->
        (forall value, Token.access_token renewed <> JStr value) ->
        (run op self w).1.1 = Raise TypeError
        /\ access_token (run op self w).1.2 = Some renewed
        /\ (run op self w).2 = w1
        /\ issued w w1 = [token_request self]).
Proof.
  intros Htoken Hrange. split.
  - intros Hvalid Hother.
    rewrite (run_valid op self token w Htoken Hrange Hvalid).
    by rewrite (func_silent op self w TypeError
                  (non_string_token_header self token Htoken Hother)).
  - intros Hexpired renewed w1 Hfetch Hother.
    rewrite (run_expired op self token w Htoken Hrange Hexpired), Hfetch.
    rewrite (func_silent op (set_access_token self renewed) w1 TypeError
               (non_string_token_header (set_access_token self renewed)
                  renewed eq_refl Hother)).
    split_and!; try done.
    pose proof (fetch_access_token_world self w) as Hworld.
    rewrite Hfetch in Hworld. cbn [snd] in Hworld. subst w1.
    apply issued_after.
Qed.

(** X9.  Among the calls of an operation other than the token request, the
    [content-encoding] header is [gzip] exactly for [post] and [put] on an
    instance with compression enabled and absent otherwise, and the calls
    of [get] and [delete] have no payload. *)
Theorem content_encoding_only_with_compressed_body (op : Operation)
    (self : APIManager.t) (w : World) (req : Request) :
  req ∈ issued w (run op self w).2 ->
  req <> token_request self ->
  headers req !! "content-encoding"
  = (if carries_body op && compression_enabled self
     then Some "gzip" else None)
  /\ (carries_body op = false -> prepare_body req = "").
Proof.
  intros [->|(self' & w1 & base & Hself & _ & Hh & Hs)]%run_issued Hother;
    [done|].
  assert (Hc : compression_enabled self' = compression_enabled self)
    by (by destruct Hself as [->|[renewed ->]]).
  pose proof (authorization_header_keys self' base Hh) as Hkeys.
  destruct op as [route params|route body|route body|route];
    cbn [func_of carries_body andb] in *.
  - rewrite (get_func_sends _ _ _ _ _ Hh) in Hs.
    by apply world_after_inj in Hs as <-.
  - rewrite (post_func_sends _ _ _ _ _ Hh), Hc in Hs.
    apply world_after_inj in Hs as <-.
    destruct (compression_enabled self); (split; [|done]); cbn [headers];
      [by rewrite lookup_insert_eq | done].
  - rewrite (put_func_sends _ _ _ _ _ Hh), Hc in Hs.
    apply world_after_inj in Hs as <-.
    destruct (compression_enabled self); (split; [|done]); cbn [headers];
      [by rewrite lookup_insert_eq | done].
  - rewrite (delete_func_sends _ _ _ _ Hh) in Hs.
    by apply world_after_inj in Hs as <-.
Qed.

(** X10.  The calls of [__init__] are, in this order and at most, the probe
    of the host and the token request; a construction that returns has
    made both; and the token request, which carries the credentials, is
    made only once the probe has been answered. *)
Theorem init_calls (client_id client_secret hostname : string)
    (compression : bool) (w : World) :
  let out := __init__ client_id client_secret hostname compression w in
  let blank := unauthenticated client_id client_secret hostname compression in
  (exists rest,
     issued w out.2 ++ rest = [probe hostname; token_request blank])
  /\ (forall self, out.1 = Return self ->
        issued w out.2 = [probe hostname; token_request self])
  /\ (token_request blank ∈ issued w out.2 ->
      exists r, outcome (net w (probe hostname)) = Responds r).
Proof.
  intros out blank. subst out blank. unfold __init__.
  destruct client_id as [|c1 id]; cbn [falsy].
  { cbn [fst snd raise]. rewrite issued_refl. split_and!.
    - by eexists.
    - done.
    - by intros ?%elem_of_nil. }
  destruct client_secret as [|c2 secret]; cbn [falsy].
  { cbn [fst snd raise]. rewrite issued_refl. split_and!.
    - by eexists.
    - done.
    - by intros ?%elem_of_nil. }
  fold (probe hostname). step_io. rewrite send_run.
  fold (unauthenticated (String c1 id) (String c2 secret) hostname
          compression).
  set (blank := unauthenticated _ _ _ _).
  destruct (outcome (net w (probe hostname))) as [r|e] eqn:Hprobe.
  - pose proof (fetch_access_token_world blank
                  (world_after w (probe hostname))) as Hworld.
    destruct (fetch_access_token blank _) as [[token|e] w2];
      cbn [snd] in Hworld; subst w2; cbn [fst snd];
      rewrite issued_after_after; split_and!.
    + by exists [].
    + by intros self [= <-].
    + by exists r.
    + by exists [].
    + done.
    + by exists r.
  - destruct e; cbn [fst snd]; rewrite issued_after; split_and!;
      try done; try (by exists [token_request blank]);
      intros Hin%list_elem_of_singleton; discriminate Hin.
Qed.





(** X13.  Two instances send the same headers to the token endpoint exactly
    when their strings [client_id:client_secret] are equal. *)
Theorem token_header_determines_credentials (a b : APIManager.t) :
  get_token_authorization_header a = get_token_authorization_header b
  <-> __client_id a +:+ ":" +:+ __client_secret a
      = __client_id b +:+ ":" +:+ __client_secret b.
Proof.
  assert (Hlookup : forall self,
            get_token_authorization_header self !! "Authorization"
            = Some ("Basic "
                    +:+ Base64.b64encode
                          (__client_id self +:+ ":" +:+ __client_secret self))).
  { intros self. unfold get_token_authorization_header.
    by rewrite lookup_insert_ne, lookup_insert_eq. }
  split.
  - intros E. pose proof (Hlookup a) as Ha. rewrite E, Hlookup in Ha.
    injection Ha as Ha. apply (inj (String.app "")) in Ha.
    apply (f_equal Base64.b64decode) in Ha.
    rewrite !b64decode_b64encode in Ha. by injection Ha.
  - unfold get_token_authorization_header. by intros ->.
Qed.

(** X14.  With a string token stored, [put] with a supplied body hands the
    library the same call as [post] with that route and body, but for the
    verb. *)
Theorem put_mirrors_post (route : string) (body : json)
    (self : APIManager.t) (token : Token.t) (value : string) (w : World) :
  access_token self = Some token ->
  Token.access_token token = JStr value ->
  exists posted stored,
    (post_func route (Given body) self w).2 = world_after w posted
    /\ (put_func route (Given body) self w).2 = world_after w stored
    /\ method posted = POST /\ method stored = PUT
    /\ url stored = url posted
    /\ headers stored = headers posted
    /\ params stored = params posted
    /\ data stored = data posted
    /\ json_kw stored = json_kw posted
    /\ shares stored = shares posted.
Proof.
  intros Htoken Hvalue.
  pose proof (string_token_header self token value Htoken Hvalue) as Hh.
  rewrite (post_func_sends route (Given body) self w _ Hh).
  rewrite (put_func_sends route (Given body) self w _ Hh).
  destruct (compression_enabled self); do 2 eexists; by split_and!.
Qed.

End Coverage.

(** ** The further theorems at sample inputs *)

Lemma fetch_access_token_unusable_document_witness :
  outcome (net (Collaborators := incomplete_env) stale
             (token_request sample_client))
  = Responds (incomplete (token_request sample_client))
  /\ decoded (incomplete (token_request sample_client))
     = Some (JObj [("token_type"%string, JStr "bearer")])
  /\ ~ 400 <= status_code (incomplete (token_request sample_client)) < 600
  /\ fetch_access_token (H := incomplete_env) sample_client stale
     = (Raise (KeyError "access_token"),
        world_after (H := incomplete_env) stale (token_request sample_client)).
Proof.
  assert (Hstatus :
    ~ 400 <= status_code (incomplete (token_request sample_client)) < 600)
    by (cbn; lia).
  split; [reflexivity|]. split; [reflexivity|]. split; [exact Hstatus|].
  exact (proj1 (proj2 (fetch_access_token_unusable_document
                         (H := incomplete_env) sample_client stale
                         (incomplete (token_request sample_client))
                         (JObj [("token_type"%string, JStr "bearer")])
                         eq_refl eq_refl Hstatus))
           [("token_type"%string, JStr "bearer")] eq_refl eq_refl).
Defined.

Lemma operation_outcome_witness :
  access_token sample_client = Some sample_token
  /\ Token.access_token sample_token = JStr "T0"
  /\ datetime_min
     <= Token.requested_at sample_token + Token.expires_in sample_token
     <= datetime_max
  /\ now early
     < Token.requested_at sample_token + Token.expires_in sample_token
  /\ exists req,
       method req = GET
       /\ url req = get_api_url sample_client +:+ "owners"
       /\ run (H := sandbox_env) (Get "owners" Omitted) sample_client early
          = (match outcome (net (Collaborators := sandbox_env) early req) with
             | Fails e => Raise e
             | Responds r =>
                 if decide (status_code r = 400 \/ status_code r = 409)
                 then Raise (ValueError (content r))
                 else if decide (400 <= status_code r < 600)
                      then Raise (HTTPError r)
                      else Return r
             end, sample_client, world_after (H := sandbox_env) early req).
Proof.
  assert (Hrange : datetime_min
                   <= Token.requested_at sample_token
                      + Token.expires_in sample_token
                   <= datetime_max) by (vm_compute; split; discriminate).
  assert (Hvalid : now early
                   < Token.requested_at sample_token
                     + Token.expires_in sample_token) by (cbn; lia).
  split; [reflexivity|]. split; [reflexivity|]. split; [exact Hrange|].
  split; [exact Hvalid|].
  exact (operation_outcome (H := sandbox_env) (Get "owners" Omitted)
           sample_client sample_token "T0" early eq_refl eq_refl Hrange
           Hvalid).
Defined.

Lemma returned_response_is_no_error_witness :
  (run (H := sandbox_env) (Get "owners" Omitted) sample_client early).1.1
  = Return (sandbox sample_get)
  /\ ~ 400 <= status_code (sandbox sample_get) < 600
  /\ exists w1 req,
       (run (H := sandbox_env) (Get "owners" Omitted) sample_client early).2
       = world_after (H := sandbox_env) w1 req
       /\ method req = GET
       /\ outcome (net (Collaborators := sandbox_env) w1 req)
          = Responds (sandbox sample_get).
Proof.
  assert (Hreturns :
    (run (H := sandbox_env) (Get "owners" Omitted) sample_client early).1.1
    = Return (sandbox sample_get)) by (vm_compute; reflexivity).
  split; [exact Hreturns|].
  exact (returned_response_is_no_error (H := sandbox_env)
           (Get "owners" Omitted) sample_client early (sandbox sample_get)
           Hreturns).
Defined.

Lemma resource_requests_carry_stored_token_witness :
  sample_get
  ∈ issued early
      (run (H := sandbox_env) (Get "owners" Omitted) sample_client early).2
  /\ sample_get <> token_request sample_client
  /\ exists token value,
       access_token
         (run (H := sandbox_env) (Get "owners" Omitted) sample_client
            early).1.2
       = Some token
       /\ Token.access_token token = JStr value
       /\ headers sample_get !! "Authorization" = Some ("Bearer " +:+ value)
       /\ headers sample_get !! "content-type" = Some "application/json".
Proof.
  assert (Hin : sample_get
                ∈ issued early
                    (run (H := sandbox_env) (Get "owners" Omitted)
                       sample_client early).2).
  { replace (issued early _) with [sample_get] by (vm_compute; reflexivity).
    apply list_elem_of_here. }
  assert (Hother : sample_get <> token_request sample_client).
  { intros E. apply (f_equal method) in E. discriminate E. }
  split; [exact Hin|]. split; [exact Hother|].
  exact (resource_requests_carry_stored_token (H := sandbox_env)
           (Get "owners" Omitted) sample_client early sample_get Hin Hother).
Defined.

Lemma non_string_token_blocks_witness :
  access_token numeric_client = Some numeric_token
  /\ datetime_min
     <= Token.requested_at numeric_token + Token.expires_in numeric_token
     <= datetime_max
  /\ now early
     < Token.requested_at numeric_token + Token.expires_in numeric_token
  /\ (forall value, Token.access_token numeric_token <> JStr value)
  /\ run (H := sandbox_env) (Get "owners" Omitted) numeric_client early
     = (Raise TypeError, numeric_client, early).
Proof.
  assert (Hrange : datetime_min
                   <= Token.requested_at numeric_token
                      + Token.expires_in numeric_token
                   <= datetime_max) by (vm_compute; split; discriminate).
  assert (Hvalid : now early
                   < Token.requested_at numeric_token
                     + Token.expires_in numeric_token) by (cbn; lia).
  assert (Hother : forall value, Token.access_token numeric_token <> JStr value)
    by (intros value E; discriminate E).
  split; [reflexivity|]. split; [exact Hrange|]. split; [exact Hvalid|].
  split; [exact Hother|].
  exact (proj1 (non_string_token_blocks (H := sandbox_env)
                  (Get "owners" Omitted) numeric_client numeric_token early
                  eq_refl Hrange) Hvalid Hother).
Defined.

Lemma content_encoding_only_with_compressed_body_witness :
  sample_post
  ∈ issued early
      (run (H := sandbox_env) (Post "events" (Given sample_document))
         sample_client early).2
  /\ sample_post <> token_request sample_client
  /\ headers sample_post !! "content-encoding" = Some "gzip".
Proof.
  assert (Hin : sample_post
                ∈ issued early
                    (run (H := sandbox_env)
                       (Post "events" (Given sample_document))
                       sample_client early).2).
  { replace (issued early _) with [sample_post] by (vm_compute; reflexivity).
    apply list_elem_of_here. }
  assert (Hother : sample_post <> token_request sample_client).
  { intros E. apply (f_equal url) in E. vm_compute in E. discriminate E. }
  split; [exact Hin|]. split; [exact Hother|].
  exact (proj1 (content_encoding_only_with_compressed_body
                  (H := sandbox_env) (Post "events" (Given sample_document))
                  sample_client early sample_post Hin Hother)).
Defined.



Lemma put_mirrors_post_witness :
  access_token sample_client = Some sample_token
  /\ Token.access_token sample_token = JStr "T0"
  /\ exists posted stored,
       (post_func (H := sandbox_env) "events" (Given sample_document)
          sample_client early).2
       = world_after (H := sandbox_env) early posted
       /\ (put_func (H := sandbox_env) "events" (Given sample_document)
             sample_client early).2
          = world_after (H := sandbox_env) early stored
       /\ method posted = POST /\ method stored = PUT
       /\ url stored = url posted
       /\ headers stored = headers posted
       /\ params stored = params posted
       /\ data stored = data posted
       /\ json_kw stored = json_kw posted
       /\ shares stored = shares posted.
Proof.
  split; [reflexivity|]. split; [reflexivity|].
  exact (put_mirrors_post (H := sandbox_env) "events" sample_document
           sample_client sample_token "T0" early eq_refl eq_refl).
Defined.
